(** * cocotbext-i2c: the I2C slave responder of [cocotbext/i2c/i2c_slave.py]

    A shallow embedding of class [I2cSlave]: the object's attributes are a
    record, each of the four coroutines started by [_restart] is a function
    from the state before one of its reactions to the state after it, and the
    simulator is a list of edge events.  Python integers are unbounded, so
    they are [Z]; an attribute that has not been assigned yet is [None]. *)

From Stdlib Require Import ZArith Bool List String Lia.
Import ListNotations.
Open Scope string_scope.
Open Scope list_scope.
Open Scope Z_scope.

(** ** Outcomes of Python code *)

Inductive exn : Type :=
| Exception                           (* [raise Exception(...)] in [__init__] *)
| AttributeError (name : string)      (* reading an attribute never assigned *)
| UnboundLocalError (name : string).  (* reading a local never assigned *)

(** The specification calls the exception of the constructor
    ConfigurationError; the source raises a bare [Exception]. *)
Definition ConfigurationError : exn := Exception.

Inductive result (A : Type) : Type :=
| Ok (a : A)
| Raise (e : exn).
Arguments Ok {A} a.
Arguments Raise {A} e.

Definition bind {A B : Type} (m : result A) (k : A -> result B) : result B :=
  match m with
  | Ok a => k a
  | Raise e => Raise e
  end.

Notation "x <- m ;; k" := (bind m (fun x => k))
  (at level 61, m at next level, right associativity).

(** Reading an attribute or a local that may still be unassigned. *)
Definition getattr {A : Type} (name : string) (o : option A) : result A :=
  match o with
  | Some a => Ok a
  | None => Raise (AttributeError name)
  end.

Definition getlocal {A : Type} (name : string) (o : option A) : result A :=
  match o with
  | Some a => Ok a
  | None => Raise (UnboundLocalError name)
  end.

(** ** The object *)

(** The attributes the coroutines read or write.  [recv_addr] is [None] as in
    Python; [active] and [recv_byte] are not assigned by [__init__], and
    [access_type] is a local of [_rising_scl] that lives across its loop
    iterations.  [sda_i] is the level the slave drives (1 releases the
    open-drain line, 0 pulls it low); [sda_o] and [scl_o], which the slave
    only observes, come with the events. *)
Record I2cSlave : Type := mkI2cSlave {
  addr : Z;
  start : bool;
  stop : bool;
  bit_pos : Z;
  address_phase : bool;
  read_phase : bool;
  write_phase : bool;
  recv_addr : option Z;
  val : Z;
  active : option bool;
  recv_byte : option Z;
  access_type : option string;
  sda_i : Z
}.

Definition set_start (v : bool) (s : I2cSlave) : I2cSlave :=
  mkI2cSlave (addr s) v (stop s) (bit_pos s) (address_phase s) (read_phase s)
    (write_phase s) (recv_addr s) (val s) (active s) (recv_byte s)
    (access_type s) (sda_i s).

Definition set_stop (v : bool) (s : I2cSlave) : I2cSlave :=
  mkI2cSlave (addr s) (start s) v (bit_pos s) (address_phase s) (read_phase s)
    (write_phase s) (recv_addr s) (val s) (active s) (recv_byte s)
    (access_type s) (sda_i s).

Definition set_bit_pos (v : Z) (s : I2cSlave) : I2cSlave :=
  mkI2cSlave (addr s) (start s) (stop s) v (address_phase s) (read_phase s)
    (write_phase s) (recv_addr s) (val s) (active s) (recv_byte s)
    (access_type s) (sda_i s).

Definition set_address_phase (v : bool) (s : I2cSlave) : I2cSlave :=
  mkI2cSlave (addr s) (start s) (stop s) (bit_pos s) v (read_phase s)
    (write_phase s) (recv_addr s) (val s) (active s) (recv_byte s)
    (access_type s) (sda_i s).

Definition set_read_phase (v : bool) (s : I2cSlave) : I2cSlave :=
  mkI2cSlave (addr s) (start s) (stop s) (bit_pos s) (address_phase s) v
    (write_phase s) (recv_addr s) (val s) (active s) (recv_byte s)
    (access_type s) (sda_i s).

Definition set_write_phase (v : bool) (s : I2cSlave) : I2cSlave :=
  mkI2cSlave (addr s) (start s) (stop s) (bit_pos s) (address_phase s)
    (read_phase s) v (recv_addr s) (val s) (active s) (recv_byte s)
    (access_type s) (sda_i s).

Definition set_recv_addr (v : option Z) (s : I2cSlave) : I2cSlave :=
  mkI2cSlave (addr s) (start s) (stop s) (bit_pos s) (address_phase s)
    (read_phase s) (write_phase s) v (val s) (active s) (recv_byte s)
    (access_type s) (sda_i s).

Definition set_val (v : Z) (s : I2cSlave) : I2cSlave :=
  mkI2cSlave (addr s) (start s) (stop s) (bit_pos s) (address_phase s)
    (read_phase s) (write_phase s) (recv_addr s) v (active s) (recv_byte s)
    (access_type s) (sda_i s).

Definition set_active (v : option bool) (s : I2cSlave) : I2cSlave :=
  mkI2cSlave (addr s) (start s) (stop s) (bit_pos s) (address_phase s)
    (read_phase s) (write_phase s) (recv_addr s) (val s) v (recv_byte s)
    (access_type s) (sda_i s).

Definition set_recv_byte (v : option Z) (s : I2cSlave) : I2cSlave :=
  mkI2cSlave (addr s) (start s) (stop s) (bit_pos s) (address_phase s)
    (read_phase s) (write_phase s) (recv_addr s) (val s) (active s) v
    (access_type s) (sda_i s).

Definition set_access_type (v : option string) (s : I2cSlave) : I2cSlave :=
  mkI2cSlave (addr s) (start s) (stop s) (bit_pos s) (address_phase s)
    (read_phase s) (write_phase s) (recv_addr s) (val s) (active s)
    (recv_byte s) v (sda_i s).

Definition set_sda_i (v : Z) (s : I2cSlave) : I2cSlave :=
  mkI2cSlave (addr s) (start s) (stop s) (bit_pos s) (address_phase s)
    (read_phase s) (write_phase s) (recv_addr s) (val s) (active s)
    (recv_byte s) (access_type s) v.

(** ** [I2cSlave.__init__]

    [if addr > 0x7f: raise Exception(...)] comes before any attribute other
    than the logger is assigned; the constructor call then yields no object.
    Otherwise the attributes get their initial values and
    [sda_i.setimmediatevalue(1)] releases the driven line. *)
Definition fresh (a : Z) : I2cSlave :=
  {| addr := Z.land a 0x7f;
     start := false;
     stop := false;
     bit_pos := 0;
     address_phase := false;
     read_phase := false;
     write_phase := false;
     recv_addr := None;
     val := 0x81;
     active := None;
     recv_byte := None;
     access_type := None;
     sda_i := 1 |}.

Definition __init__ (a : Z) : result I2cSlave :=
  if a >? 0x7f then Raise Exception else Ok (fresh a).

(** ** The four reactions *)

(** [_detect_start]: one iteration after [await FallingEdge(self.sda_o)];
    [scl_o] is the clock level read at that moment. *)
Definition _detect_start (scl_o : bool) (s : I2cSlave) : I2cSlave :=
  if scl_o then
    let s := set_start true s in
    let s := set_bit_pos 0 s in
    let s := set_address_phase true s in
    set_active (Some false) s
  else s.

(** [_detect_stop]: one iteration after [await RisingEdge(self.sda_o)]. *)
Definition _detect_stop (scl_o : bool) (s : I2cSlave) : I2cSlave :=
  if scl_o then set_stop true s else s.

(** [(self.address_phase and self.active) or self.write_phase]: Python reads
    [self.active] only when [address_phase] is true. *)
Definition ack_wanted (s : I2cSlave) : result bool :=
  if address_phase s then
    a <- getattr "active" (active s) ;;
    Ok (a || write_phase s)
  else Ok (write_phase s).

(** Lines 142-147: the bit counter moves while a start is pending or a byte
    is under way. *)
Definition advance (s : I2cSlave) : I2cSlave :=
  if start s || negb (bit_pos s =? 0) then
    let s := if bit_pos s =? 9 then set_bit_pos 1 s
             else set_bit_pos (bit_pos s + 1) s in
    set_start false s
  else s.

(** Lines 149-155: the acknowledge or the next bit of [val]. *)
Definition drive (s : I2cSlave) : result I2cSlave :=
  ack <- ack_wanted s ;;
  if ack then
    Ok (if bit_pos s =? 9 then set_sda_i 0 s else s)
  else if read_phase s then
    Ok (if negb (0 =? bit_pos s) && negb (bit_pos s >=? 9)
        then set_sda_i (Z.land (Z.shiftr (val s) (8 - bit_pos s)) 0x1) s
        else s)
  else Ok s.

(** [_falling_scl]: one iteration, from the end of [wait_clock_dly] on. *)
Definition _falling_scl (s : I2cSlave) : result I2cSlave :=
  let s := set_sda_i 1 s in
  let s := advance s in
  drive s.

(** Lines 165-178: what [_rising_scl] does at the eighth bit.  The logging
    call changes no attribute, but its f-string reads [access_type] and
    [self.active]. *)
Definition eighth_bit (sda_o : bool) (s : I2cSlave) : result I2cSlave :=
  s <- (if address_phase s then
          let s := set_read_phase false s in
          let s := set_write_phase false s in
          rb <- getattr "recv_byte" (recv_byte s) ;;
          let s := set_recv_addr (Some (Z.shiftr rb 1)) s in
          let s := set_active (Some (Z.shiftr rb 1 =? addr s)) s in
          if sda_o
          then Ok (set_access_type (Some "Read") (set_read_phase true s))
          else Ok (set_access_type (Some "Write") (set_write_phase true s))
        else Ok s) ;;
  if address_phase s || write_phase s then
    _ <- getlocal "access_type" (access_type s) ;;
    _ <- getattr "active" (active s) ;;
    Ok s
  else Ok s.

(** Lines 160-178: shifting the observed bit into [recv_byte]. *)
Definition sample (sda_o : bool) (s : I2cSlave) : result I2cSlave :=
  if negb (0 =? bit_pos s) && negb (bit_pos s >=? 9) then
    let s := if 1 =? bit_pos s then set_recv_byte (Some 0) s else s in
    rb <- getattr "recv_byte" (recv_byte s) ;;
    let s := set_recv_byte
               (Some (Z.lor rb (Z.shiftl (Z.b2z sda_o) (8 - bit_pos s)))) s in
    if bit_pos s =? 8 then eighth_bit sda_o s else Ok s
  else Ok s.

(** Lines 180-184: the ninth clock of a byte. *)
Definition ninth_clock (s : I2cSlave) : I2cSlave :=
  let s := if read_phase s && negb (address_phase s) && (bit_pos s =? 9)
           then set_val (val s + 1) s else s in
  if bit_pos s =? 9 then set_address_phase false s else s.

(** [_rising_scl]: one iteration after [await RisingEdge(self.scl_o)];
    [sda_o] is the data level read during it. *)
Definition _rising_scl (sda_o : bool) (s : I2cSlave) : result I2cSlave :=
  s <- sample sda_o s ;;
  Ok (ninth_clock s).

(** ** The bus as the slave sees it *)

(** One event per wake-up of a coroutine: the edge it awaited and the level
    of the other wire it reads. *)
Inductive event : Type :=
| FallingEdge_sda (scl_o : bool)
| RisingEdge_sda (scl_o : bool)
| FallingEdge_scl
| RisingEdge_scl (sda_o : bool).

Definition step (e : event) (s : I2cSlave) : result I2cSlave :=
  match e with
  | FallingEdge_sda scl_o => Ok (_detect_start scl_o s)
  | RisingEdge_sda scl_o => Ok (_detect_stop scl_o s)
  | FallingEdge_scl => _falling_scl s
  | RisingEdge_scl sda_o => _rising_scl sda_o s
  end.

Fixpoint run (t : list event) (s : I2cSlave) : result I2cSlave :=
  match t with
  | [] => Ok s
  | e :: t' => s' <- step e s ;; run t' s'
  end.

(** A state is reachable for own address [a] when some event sequence leads
    to it from the freshly constructed object. *)
Definition reachable (a : Z) (s : I2cSlave) : Prop :=
  exists (t : list event) (s0 : I2cSlave), __init__ a = Ok s0 /\ run t s0 = Ok s.

(** What a bus master puts on the wires. *)
Definition Start : event := FallingEdge_sda true.
Definition Stop : event := RisingEdge_sda true.

(** One clock cycle carrying data level [b]. *)
Definition clock_bit (b : bool) : list event :=
  [FallingEdge_scl; RisingEdge_scl b].

(** The eight bits of a byte, most significant first. *)
Definition bits_msb (byte : Z) : list bool :=
  map (Z.testbit byte) [7; 6; 5; 4; 3; 2; 1; 0].

Definition send_bits (bs : list bool) : list event :=
  flat_map clock_bit bs.

Definition send_byte (byte : Z) : list event := send_bits (bits_msb byte).

(** The first byte of a transaction: seven address bits and the direction. *)
Definition address_byte (a : Z) (dir : bool) : Z :=
  Z.lor (Z.shiftl a 1) (Z.b2z dir).

(** The levels [_falling_scl] leaves on [sda_i], one per falling clock edge
    of the event sequence, in order; [None] once a reaction has raised. *)
Fixpoint driven (t : list event) (s : I2cSlave) : option (list Z) :=
  match t with
  | [] => Some []
  | e :: t' =>
      match step e s with
      | Raise _ => None
      | Ok s' =>
          match driven t' s' with
          | None => None
          | Some l =>
              Some match e with
                   | FallingEdge_scl => sda_i s' :: l
                   | _ => l
                   end
          end
      end
  end.

(** How many read bytes the event sequence completes: the rising clock edges
    taken at [bit_pos == 9] with [read_phase] set and [address_phase] clear
    (line 180), whatever the level of [sda_o]. *)
Definition read_completion (e : event) (s : I2cSlave) : bool :=
  match e with
  | RisingEdge_scl _ =>
      read_phase s && negb (address_phase s) && (bit_pos s =? 9)
  | _ => false
  end.

Fixpoint completed_reads (t : list event) (s : I2cSlave) : Z :=
  match t with
  | [] => 0
  | e :: t' =>
      match step e s with
      | Ok s' =>
          (if read_completion e s then 1 else 0) + completed_reads t' s'
      | Raise _ => 0
      end
  end.

(** Bit [8 - k] of the data register: what the slave sends at position [k]. *)
Definition val_bit (v k : Z) : Z := Z.land (Z.shiftr v (8 - k)) 0x1.

(** The position after a falling clock edge that advances the counter. *)
Definition next_pos (k : Z) : Z := if k =? 9 then 1 else k + 1.

(** ** Vocabulary of the statements and proofs *)

(** The level [drive] puts on the line when [ack_wanted] returns [ack]. *)
Definition drive_level (ack : bool) (s : I2cSlave) : Z :=
  if ack then (if bit_pos s =? 9 then 0 else sda_i s)
  else if read_phase s && negb (0 =? bit_pos s) && negb (bit_pos s >=? 9)
       then val_bit (val s) (bit_pos s)
       else sda_i s.

(** The direction flags, the match and the decoded address are as before. *)
Definition same_flags (s s' : I2cSlave) : Prop :=
  read_phase s' = read_phase s /\ write_phase s' = write_phase s /\
  active s' = active s /\ access_type s' = access_type s /\
  recv_addr s' = recv_addr s.

(** What lines 167-176 leave behind at the eighth bit of an address byte
    whose last bit is [b]. *)
Definition decoded (b : bool) (own : Z) (s' : I2cSlave) : Prop :=
  exists rb : Z,
    recv_byte s' = Some rb /\
    read_phase s' = b /\ write_phase s' = negb b /\
    recv_addr s' = Some (Z.shiftr rb 1) /\
    active s' = Some (Z.shiftr rb 1 =? own) /\
    access_type s' = Some (if b then "Read" else "Write").

(** The byte under assembly before the observed bit is or-ed in. *)
Definition partial_byte (s : I2cSlave) : option Z :=
  if 1 =? bit_pos s then Some 0 else recv_byte s.

(** What holds in every reachable state (see [reachable_Inv]). *)
Record Inv (s : I2cSlave) : Prop := {
  inv_pos : 0 <= bit_pos s <= 9;
  inv_excl : read_phase s && write_phase s = false;
  inv_active : address_phase s = true -> active s <> None;
  inv_decoded : read_phase s || write_phase s = true ->
                active s <> None /\ access_type s <> None
}.

(** The slave is in the address phase at position [k], with [acc] assembled
    so far. *)
Definition receiving (k acc : Z) (s : I2cSlave) : Prop :=
  bit_pos s = k /\ address_phase s = true /\ active s = Some false /\
  (k = 0 -> start s = true) /\
  (0 < k -> recv_byte s = Some acc).

(** Line 163 at position [k + 1]. *)
Definition shift_in (k acc : Z) (b : bool) : Z :=
  Z.lor (if k =? 0 then 0 else acc) (Z.shiftl (Z.b2z b) (8 - (k + 1))).

(** [recv_byte] after the bits [bs] have been sampled from position [k]
    on. *)
Fixpoint assemble (k acc : Z) (bs : list bool) : Z :=
  match bs with
  | [] => acc
  | b :: bs' => assemble (k + 1) (shift_in k acc b) bs'
  end.

(** The first seven bits of a byte, most significant first. *)
Definition high_bits (byte : Z) : list bool :=
  map (Z.testbit byte) [7; 6; 5; 4; 3; 2; 1].

(** The checks of [address_byte_fields], as a function that computes. *)
Definition address_byte_ok (a : Z) (dir : bool) : bool :=
  (0 <=? address_byte a dir) && (address_byte a dir <? 256) &&
  (Z.shiftr (address_byte a dir) 1 =? a) &&
  Bool.eqb (Z.testbit (address_byte a dir) 0) dir.

(** The slave is past the address byte of a read, at position [k]. *)
Definition sending (k : Z) (s : I2cSlave) : Prop :=
  bit_pos s = k /\ read_phase s = true /\ write_phase s = false /\
  address_phase s = false /\ (k <= 8 -> recv_byte s <> None).

(** What the slave puts on the line at position [k] with [v] in [val]. *)
Definition sent_level (v k : Z) : Z := if k =? 9 then 1 else val_bit v k.

(** [val] after the rising edge at position [k]. *)
Definition val_after (v k : Z) : Z := if k =? 9 then v + 1 else v.

(** The levels of [n] clock cycles of a read that stands at position [k]
    with [v] in [val]. *)
Fixpoint sent (v k : Z) (n : nat) : list Z :=
  match n with
  | O => []
  | S n' =>
      sent_level v (next_pos k)
        :: sent (val_after v (next_pos k)) (next_pos k) n'
  end.

(** A read from own address 0x45: the address byte 0x8B and its acknowledge,
    [n] data bytes with their acknowledges, and one more data byte up to the
    falling edge of its acknowledge slot. *)
Definition read_bytes (n : nat) : list event :=
  Start :: send_byte 0x8B ++ clock_bit false
    ++ List.concat (repeat (send_byte 0xFF ++ clock_bit false) n)
    ++ send_byte 0xFF ++ [FallingEdge_scl].

(** The state [read_bytes 0] leads to: the seed byte is on its way out and
    the master is about to acknowledge it. *)
Definition first_byte_sent : I2cSlave :=
  Eval vm_compute in
    match run (read_bytes 0) (fresh 0x45) with
    | Ok s => s
    | Raise _ => fresh 0x45
    end.

(** Own address 0x45, first byte 0x8A (address 0x45, write), at the eighth
    bit. *)
Definition write_address_decoded : I2cSlave :=
  Eval vm_compute in
    match run (Start :: send_byte 0x8A) (fresh 0x45) with
    | Ok s => s
    | Raise _ => fresh 0x45
    end.

(** The same write carried on by one data byte and a Stop. *)
Definition write_stopped : I2cSlave :=
  Eval vm_compute in
    match run (clock_bit false ++ send_byte 0x00 ++ clock_bit false ++ [Stop])
            write_address_decoded with
    | Ok s => s
    | Raise _ => fresh 0x45
    end.

(** ** Vocabulary of the further properties *)

(** No Start in the event sequence: the data line never falls while the
    clock is high. *)
Definition no_start (t : list event) : bool :=
  forallb (fun e => match e with
                    | FallingEdge_sda true => false
                    | _ => true
                    end) t.

(** The slave has seen no Start yet, or nothing since its construction. *)
Definition idle (s : I2cSlave) : Prop :=
  bit_pos s = 0 /\ start s = false /\ address_phase s = false /\
  read_phase s = false /\ write_phase s = false /\ sda_i s = 1.



(** The next falling edge opens position [k + 1] of a byte, of which [acc]
    has been assembled so far. *)
Definition assembling (k acc : Z) (s : I2cSlave) : Prop :=
  Inv s /\ (start s = true \/ bit_pos s <> 0) /\
  next_pos (bit_pos s) = k + 1 /\ (0 < k -> recv_byte s = Some acc).

(** The slave is past the address byte of a write, at position [k]. *)
Definition writing (k : Z) (s : I2cSlave) : Prop :=
  bit_pos s = k /\ write_phase s = true /\ read_phase s = false /\
  address_phase s = false /\ active s <> None /\ access_type s <> None /\
  (k <= 8 -> recv_byte s <> None).

(** The levels of [n] clock cycles of a write that stands at position [k]:
    low in the acknowledge slot, released elsewhere. *)
Fixpoint ack_levels (k : Z) (n : nat) : list Z :=
  match n with
  | O => []
  | S n' => (if next_pos k =? 9 then 0 else 1) :: ack_levels (next_pos k) n'
  end.

(** [n] read bytes on the wire, counting up from [v] modulo 256, each
    followed by the released acknowledge slot. *)
Fixpoint read_stream (v : Z) (n : nat) : list Z :=
  match n with
  | O => []
  | S n' => map Z.b2z (bits_msb (v mod 256)) ++ 1 :: read_stream (v + 1) n'
  end.

(** * Properties *)

(** Reduce attribute reads and writes, and nothing of the arithmetic. *)
Ltac attrs :=
  cbn [addr start stop bit_pos address_phase read_phase write_phase recv_addr
       val active recv_byte access_type sda_i
       set_start set_stop set_bit_pos set_address_phase set_read_phase
       set_write_phase set_recv_addr set_val set_active set_recv_byte
       set_access_type set_sda_i bind getattr getlocal andb orb negb].

Tactic Notation "attrs" "in" hyp(H) :=
  cbn [addr start stop bit_pos address_phase read_phase write_phase recv_addr
       val active recv_byte access_type sda_i
       set_start set_stop set_bit_pos set_address_phase set_read_phase
       set_write_phase set_recv_addr set_val set_active set_recv_byte
       set_access_type set_sda_i bind getattr getlocal andb orb negb] in H.

(** ** Running event sequences *)

Lemma bind_Ok {A B : Type} (m : result A) (k : A -> result B) (b : B) :
  bind m k = Ok b -> exists a, m = Ok a /\ k a = Ok b.
Proof.
  destruct m as [a | e]; simpl; intros H.
  - exists a; split; [reflexivity | exact H].
  - discriminate H.
Qed.

Lemma getattr_Ok {A : Type} (name : string) (o : option A) (a : A) :
  getattr name o = Ok a -> o = Some a.
Proof. destruct o; simpl; intros H; [injection H as -> | discriminate H]; reflexivity. Qed.

Lemma run_app (t1 t2 : list event) (s : I2cSlave) :
  run (t1 ++ t2) s = (s1 <- run t1 s ;; run t2 s1).
Proof.
  revert s; induction t1 as [| e t1 IH]; intros s; simpl.
  - reflexivity.
  - destruct (step e s) as [s' | x]; simpl; [apply IH | reflexivity].
Qed.

Lemma run_app_Ok (t1 t2 : list event) (s s1 s2 : I2cSlave) :
  run t1 s = Ok s1 -> run t2 s1 = Ok s2 -> run (t1 ++ t2) s = Ok s2.
Proof. intros H1 H2. rewrite run_app, H1. exact H2. Qed.

Lemma reachable_init (a : Z) (s0 : I2cSlave) :
  __init__ a = Ok s0 -> reachable a s0.
Proof. intros H. exists [], s0. split; [exact H | reflexivity]. Qed.

Lemma reachable_run (a : Z) (t : list event) (s s' : I2cSlave) :
  reachable a s -> run t s = Ok s' -> reachable a s'.
Proof.
  intros (t0 & s0 & Hi & Hr) H.
  exists (t0 ++ t), s0. split; [exact Hi | eapply run_app_Ok; eassumption].
Qed.

Lemma reachable_step (a : Z) (e : event) (s s' : I2cSlave) :
  reachable a s -> step e s = Ok s' -> reachable a s'.
Proof.
  intros Hs H. apply (reachable_run a [e] s s' Hs). simpl. rewrite H. reflexivity.
Qed.

(** Induction over the reachable states. *)
Lemma reachable_ind (a : Z) (P : I2cSlave -> Prop) :
  (forall s0, __init__ a = Ok s0 -> P s0) ->
  (forall e s s', P s -> step e s = Ok s' -> P s') ->
  forall s, reachable a s -> P s.
Proof.
  intros Hinit Hstep s (t & s0 & Hi & Hr).
  specialize (Hinit s0 Hi). clear Hi.
  revert s0 Hinit Hr. induction t as [| e t IH]; intros s0 H0 Hr; simpl in Hr.
  - injection Hr as <-. exact H0.
  - apply bind_Ok in Hr as (s1 & H1 & Hr).
    exact (IH s1 (Hstep e s0 s1 H0 H1) Hr).
Qed.

(** ** What each clock reaction leaves alone *)

Lemma advance_pos (s : I2cSlave) :
  start (advance s) = false /\
  bit_pos (advance s) = (if start s || negb (bit_pos s =? 0)
                         then next_pos (bit_pos s) else bit_pos s).
Proof.
  unfold advance, next_pos.
  destruct (start s) eqn:Es; cbn;
    destruct (bit_pos s =? 0); cbn; try destruct (bit_pos s =? 9); cbn; auto.
Qed.

Lemma advance_frame (s : I2cSlave) :
  addr (advance s) = addr s /\ stop (advance s) = stop s /\
  address_phase (advance s) = address_phase s /\
  read_phase (advance s) = read_phase s /\
  write_phase (advance s) = write_phase s /\
  recv_addr (advance s) = recv_addr s /\ val (advance s) = val s /\
  active (advance s) = active s /\ recv_byte (advance s) = recv_byte s /\
  access_type (advance s) = access_type s /\ sda_i (advance s) = sda_i s.
Proof.
  unfold advance.
  destruct (start s || negb (bit_pos s =? 0));
    try destruct (bit_pos s =? 9); cbn; repeat split; reflexivity.
Qed.

Lemma drive_spec (s s' : I2cSlave) :
  drive s = Ok s' ->
  exists ack : bool,
    ack_wanted s = Ok ack /\ s' = set_sda_i (drive_level ack s) s.
Proof.
  unfold drive. intros H. apply bind_Ok in H as (ack & Hack & H).
  exists ack. split; [exact Hack |].
  unfold drive_level, val_bit.
  destruct s as [ad st sp bp ap rp wp ra v ac rb at_ sd]; attrs; attrs in H.
  destruct ack; [destruct (bp =? 9) | destruct rp; attrs; attrs in H;
    [destruct (negb (0 =? bp) && negb (bp >=? 9)) |]];
    injection H as <-; reflexivity.
Qed.

Lemma falling_scl_spec (s s' : I2cSlave) :
  _falling_scl s = Ok s' ->
  exists ack : bool,
    ack_wanted s = Ok ack /\
    s' = set_sda_i (drive_level ack (advance (set_sda_i 1 s)))
           (advance (set_sda_i 1 s)).
Proof.
  unfold _falling_scl. intros H. apply drive_spec in H as (ack & Hack & ->).
  exists ack. split; [| reflexivity].
  revert Hack. unfold ack_wanted.
  destruct (advance_frame (set_sda_i 1 s))
    as (_ & _ & -> & _ & -> & _ & _ & -> & _).
  destruct s; cbn. auto.
Qed.

Lemma falling_scl_frame (s s' : I2cSlave) :
  _falling_scl s = Ok s' ->
  addr s' = addr s /\ stop s' = stop s /\
  address_phase s' = address_phase s /\
  read_phase s' = read_phase s /\ write_phase s' = write_phase s /\
  recv_addr s' = recv_addr s /\ val s' = val s /\ active s' = active s /\
  recv_byte s' = recv_byte s /\ access_type s' = access_type s.
Proof.
  intros H. apply falling_scl_spec in H as (ack & _ & ->).
  destruct (advance_frame (set_sda_i 1 s))
    as (H1 & H2 & H3 & H4 & H5 & H6 & H7 & H8 & H9 & H10 & _).
  cbn. rewrite H1, H2, H3, H4, H5, H6, H7, H8, H9, H10.
  destruct s; cbn. repeat split; reflexivity.
Qed.

(** The counter after a falling clock edge, and the pending start. *)
Lemma falling_scl_pos (s s' : I2cSlave) :
  _falling_scl s = Ok s' ->
  start s' = false /\
  bit_pos s' = (if start s || negb (bit_pos s =? 0)
                then next_pos (bit_pos s) else bit_pos s).
Proof.
  intros H. apply falling_scl_spec in H as (ack & _ & ->).
  destruct (advance_pos (set_sda_i 1 s)) as (H1 & H2).
  cbn. rewrite H1, H2. destruct s; cbn. split; reflexivity.
Qed.

(** The level a falling clock edge leaves on the driven line. *)
Lemma falling_scl_sda (s s' : I2cSlave) :
  _falling_scl s = Ok s' ->
  exists ack : bool,
    ack_wanted s = Ok ack /\
    sda_i s' =
      (if ack then (if bit_pos s' =? 9 then 0 else 1)
       else if read_phase s && negb (0 =? bit_pos s') && negb (bit_pos s' >=? 9)
            then val_bit (val s) (bit_pos s') else 1).
Proof.
  intros H. apply falling_scl_spec in H as (ack & Hack & ->).
  exists ack. split; [exact Hack |].
  unfold drive_level.
  destruct (advance_frame (set_sda_i 1 s))
    as (_ & _ & _ & -> & _ & _ & -> & _ & _ & _ & ->).
  destruct s; cbn. reflexivity.
Qed.

(** A falling clock edge raises only on an unassigned [active]. *)
Lemma falling_scl_total (s : I2cSlave) :
  (address_phase s = true -> active s <> None) ->
  exists s', _falling_scl s = Ok s'.
Proof.
  intros Ha. unfold _falling_scl, drive, ack_wanted.
  destruct (advance_frame (set_sda_i 1 s))
    as (_ & _ & -> & -> & -> & _ & _ & -> & _).
  replace (address_phase (set_sda_i 1 s)) with (address_phase s)
    by (destruct s; reflexivity).
  replace (active (set_sda_i 1 s)) with (active s) by (destruct s; reflexivity).
  destruct (address_phase s).
  - destruct (active s) as [a |]; [| exfalso; apply Ha; reflexivity].
    cbn. destruct (a || _); [| destruct (read_phase _)]; eexists; reflexivity.
  - cbn. destruct (write_phase _); [| destruct (read_phase _)];
      eexists; reflexivity.
Qed.

(** A rising clock edge moves neither the counter nor the driven line. *)
Lemma eighth_bit_frame (b : bool) (s s' : I2cSlave) :
  eighth_bit b s = Ok s' ->
  addr s' = addr s /\ start s' = start s /\ stop s' = stop s /\
  bit_pos s' = bit_pos s /\ sda_i s' = sda_i s /\ val s' = val s /\
  address_phase s' = address_phase s /\ recv_byte s' = recv_byte s.
Proof.
  destruct s as [ad st sp bp ap rp wp ra v ac rb at_ sd].
  unfold eighth_bit; attrs.
  destruct ap; attrs.
  - destruct rb as [rb |]; attrs; [| intros H; discriminate H].
    destruct b; attrs; intros H; injection H as <-; attrs;
      repeat split; reflexivity.
  - destruct wp; attrs; [destruct at_, ac; attrs |];
      intros H; try discriminate H; injection H as <-; attrs;
      repeat split; reflexivity.
Qed.

Lemma sample_frame (b : bool) (s s' : I2cSlave) :
  sample b s = Ok s' ->
  addr s' = addr s /\ start s' = start s /\ stop s' = stop s /\
  bit_pos s' = bit_pos s /\ sda_i s' = sda_i s /\ val s' = val s /\
  address_phase s' = address_phase s.
Proof.
  unfold sample.
  destruct (negb (0 =? bit_pos s) && negb (bit_pos s >=? 9)).
  - intros H. apply bind_Ok in H as (rb & _ & H).
    assert (Hs : forall (x y : option Z) (c : bool),
               set_recv_byte x (if c then set_recv_byte y s else s)
               = set_recv_byte x s)
      by (intros x y []; destruct s; reflexivity).
    rewrite Hs in H.
    replace (bit_pos (set_recv_byte _ s)) with (bit_pos s) in H
      by (destruct s; reflexivity).
    destruct (bit_pos s =? 8).
    + apply eighth_bit_frame in H
        as (H1 & H2 & H3 & H4 & H5 & H6 & H7 & _).
      rewrite H1, H2, H3, H4, H5, H6, H7. destruct s; attrs.
      repeat split; reflexivity.
    + injection H as <-. destruct s; attrs. repeat split; reflexivity.
  - intros H; injection H as <-. repeat split; reflexivity.
Qed.

Lemma ninth_clock_frame (s : I2cSlave) :
  addr (ninth_clock s) = addr s /\ start (ninth_clock s) = start s /\
  stop (ninth_clock s) = stop s /\ bit_pos (ninth_clock s) = bit_pos s /\
  sda_i (ninth_clock s) = sda_i s /\
  read_phase (ninth_clock s) = read_phase s /\
  write_phase (ninth_clock s) = write_phase s /\
  active (ninth_clock s) = active s /\
  recv_byte (ninth_clock s) = recv_byte s /\
  recv_addr (ninth_clock s) = recv_addr s /\
  access_type (ninth_clock s) = access_type s.
Proof.
  unfold ninth_clock.
  destruct s as [ad st sp bp ap rp wp ra v ac rb at_ sd]; attrs.
  destruct (rp && negb ap && (bp =? 9)); attrs; destruct (bp =? 9); attrs;
    repeat split; reflexivity.
Qed.

Lemma ninth_clock_val (s : I2cSlave) :
  val (ninth_clock s) =
    (if read_phase s && negb (address_phase s) && (bit_pos s =? 9)
     then val s + 1 else val s) /\
  address_phase (ninth_clock s) =
    (if bit_pos s =? 9 then false else address_phase s).
Proof.
  unfold ninth_clock.
  destruct s as [ad st sp bp ap rp wp ra v ac rb at_ sd]; attrs.
  destruct (rp && negb ap && (bp =? 9)); attrs; destruct (bp =? 9); attrs;
    split; reflexivity.
Qed.

Lemma rising_scl_frame (b : bool) (s s' : I2cSlave) :
  _rising_scl b s = Ok s' ->
  addr s' = addr s /\ start s' = start s /\ stop s' = stop s /\
  bit_pos s' = bit_pos s /\ sda_i s' = sda_i s.
Proof.
  unfold _rising_scl. intros H. apply bind_Ok in H as (s1 & H1 & H).
  injection H as <-.
  apply sample_frame in H1 as (<- & <- & <- & <- & <- & _).
  destruct (ninth_clock_frame s1) as (-> & -> & -> & -> & -> & _).
  repeat split; reflexivity.
Qed.

Lemma eighth_bit_cases (b : bool) (s s' : I2cSlave) :
  eighth_bit b s = Ok s' ->
  (address_phase s = true /\ decoded b (addr s) s') \/
  (address_phase s = false /\ same_flags s s').
Proof.
  destruct s as [ad st sp bp ap rp wp ra v ac rb at_ sd].
  unfold eighth_bit, decoded, same_flags; attrs.
  destruct ap; attrs.
  - destruct rb as [rb |]; attrs; [| intros H; discriminate H].
    destruct b; attrs; intros H; injection H as <-; attrs;
      left; (split; [reflexivity |]); exists rb; repeat split; reflexivity.
  - destruct wp; attrs; [destruct at_, ac; attrs |];
      intros H; try discriminate H; injection H as <-; attrs;
      right; repeat split; reflexivity.
Qed.

Lemma set_recv_byte_attrs (x : option Z) (s : I2cSlave) :
  addr (set_recv_byte x s) = addr s /\
  bit_pos (set_recv_byte x s) = bit_pos s /\
  address_phase (set_recv_byte x s) = address_phase s /\
  recv_byte (set_recv_byte x s) = x /\
  same_flags s (set_recv_byte x s).
Proof. destruct s; unfold same_flags; attrs. repeat split; reflexivity. Qed.

Lemma sample_spec (b : bool) (s s' : I2cSlave) :
  sample b s = Ok s' ->
  if negb (0 =? bit_pos s) && negb (bit_pos s >=? 9) then
    exists rb : Z,
      partial_byte s = Some rb /\
      let s1 := set_recv_byte
                  (Some (Z.lor rb (Z.shiftl (Z.b2z b) (8 - bit_pos s)))) s in
      if bit_pos s =? 8 then eighth_bit b s1 = Ok s' else s' = s1
  else s' = s.
Proof.
  unfold sample, partial_byte.
  destruct (negb (0 =? bit_pos s) && negb (bit_pos s >=? 9));
    [| intros H; injection H as <-; reflexivity].
  intros H. apply bind_Ok in H as (rb & Hrb & H).
  exists rb. split.
  - apply getattr_Ok in Hrb.
    destruct (1 =? bit_pos s); [| exact Hrb].
    destruct s; attrs in Hrb. exact Hrb.
  - assert (Hs : forall (x y : option Z) (c : bool),
               set_recv_byte x (if c then set_recv_byte y s else s)
               = set_recv_byte x s)
      by (intros x y []; destruct s; reflexivity).
    assert (Hb : forall (y : option Z) (c : bool),
               bit_pos (if c then set_recv_byte y s else s) = bit_pos s)
      by (intros y []; destruct s; reflexivity).
    rewrite Hs, Hb in H. cbv zeta.
    destruct (set_recv_byte_attrs
                (Some (Z.lor rb (Z.shiftl (Z.b2z b) (8 - bit_pos s)))) s)
      as (_ & Hbp & _).
    rewrite Hbp in H.
    destruct (bit_pos s =? 8); [exact H | injection H as <-; reflexivity].
Qed.

Lemma sample_cases (b : bool) (s s' : I2cSlave) :
  sample b s = Ok s' ->
  (bit_pos s = 8 /\ address_phase s = true /\ decoded b (addr s) s') \/
  same_flags s s'.
Proof.
  intros H. apply sample_spec in H.
  destruct (negb (0 =? bit_pos s) && negb (bit_pos s >=? 9));
    [| subst s'; right; repeat split; reflexivity].
  destruct H as (rb & _ & H). cbv zeta in H.
  destruct (set_recv_byte_attrs
              (Some (Z.lor rb (Z.shiftl (Z.b2z b) (8 - bit_pos s)))) s)
    as (Had & _ & Hap & _ & Hf).
  destruct (Z.eqb_spec (bit_pos s) 8) as [E8 | _];
    [| subst s'; right; exact Hf].
  apply eighth_bit_cases in H as [(H1 & H2) | (_ & H2)].
  - left. rewrite Hap in H1. rewrite Had in H2. auto.
  - right. unfold same_flags in *.
    destruct Hf as (<- & <- & <- & <- & <-). exact H2.
Qed.

(** The data register after a rising clock edge. *)
Lemma rising_scl_val (b : bool) (s s' : I2cSlave) :
  _rising_scl b s = Ok s' ->
  val s' = (if read_completion (RisingEdge_scl b) s then val s + 1 else val s).
Proof.
  unfold _rising_scl. intros H. apply bind_Ok in H as (s1 & H1 & H).
  injection H as <-.
  destruct (ninth_clock_val s1) as (-> & _).
  assert (Hrp : read_phase s1 && negb (address_phase s1) && (bit_pos s1 =? 9)
                = read_phase s && negb (address_phase s) && (bit_pos s =? 9)).
  { pose proof (sample_frame _ _ _ H1) as (_ & _ & _ & Hbp & _ & _ & Hap).
    rewrite Hbp, Hap.
    destruct (bit_pos s =? 9) eqn:E9; [| rewrite !andb_false_r; reflexivity].
    apply Z.eqb_eq in E9. unfold sample in H1. rewrite E9 in H1.
    cbn in H1. injection H1 as <-. reflexivity. }
  cbn [read_completion]. rewrite Hrp.
  apply sample_frame in H1 as (_ & _ & _ & _ & _ & -> & _). reflexivity.
Qed.

(** ** The invariant of the reachable states *)

Lemma init_Inv (a : Z) (s0 : I2cSlave) : __init__ a = Ok s0 -> Inv s0.
Proof.
  unfold __init__. destruct (a >? 0x7f); intros H; [discriminate H |].
  injection H as <-. unfold fresh.
  split; attrs; try lia; try reflexivity; discriminate.
Qed.

Lemma detect_start_Inv (c : bool) (s : I2cSlave) :
  Inv s -> Inv (_detect_start c s).
Proof.
  intros [Hp He Ha Hd]. destruct c; [| split; assumption].
  destruct s as [ad st sp bp ap rp wp ra v ac rb at_ sd].
  unfold _detect_start; attrs; attrs in Hd.
  split; attrs; try lia; try assumption; try discriminate.
  intros H. destruct (Hd H) as [_ Hat]. split; [discriminate | exact Hat].
Qed.

Lemma detect_stop_Inv (c : bool) (s : I2cSlave) :
  Inv s -> Inv (_detect_stop c s).
Proof.
  intros [Hp He Ha Hd]. destruct c; [| split; assumption].
  destruct s; unfold _detect_stop; split; assumption.
Qed.

Lemma falling_scl_Inv (s s' : I2cSlave) :
  Inv s -> _falling_scl s = Ok s' -> Inv s'.
Proof.
  intros [Hp He Ha Hd] H.
  destruct (falling_scl_pos _ _ H) as (_ & Hbp).
  destruct (falling_scl_frame _ _ H)
    as (_ & _ & Hap & Hrp & Hwp & _ & _ & Hac & _ & Hat).
  split; rewrite ?Hap, ?Hrp, ?Hwp, ?Hac, ?Hat; try assumption.
  rewrite Hbp. unfold next_pos.
  destruct (start s || negb (bit_pos s =? 0)); [| exact Hp].
  destruct (Z.eqb_spec (bit_pos s) 9); lia.
Qed.

Lemma rising_scl_Inv (b : bool) (s s' : I2cSlave) :
  Inv s -> _rising_scl b s = Ok s' -> Inv s'.
Proof.
  intros [Hp He Ha Hd] H.
  destruct (rising_scl_frame _ _ _ H) as (_ & _ & _ & Hbp & _).
  unfold _rising_scl in H. apply bind_Ok in H as (s1 & H1 & H).
  injection H as <-.
  destruct (ninth_clock_frame s1)
    as (_ & _ & _ & _ & _ & Hrp & Hwp & Hac & _ & _ & Hat).
  destruct (ninth_clock_val s1) as (_ & Hap).
  pose proof (sample_frame _ _ _ H1) as (_ & _ & _ & _ & _ & _ & Hap1).
  assert (Hap' : address_phase (ninth_clock s1) = true ->
                 address_phase s = true).
  { rewrite Hap, Hap1. destruct (bit_pos s1 =? 9); [discriminate | auto]. }
  split; rewrite ?Hrp, ?Hwp, ?Hac, ?Hat.
  - rewrite Hbp. exact Hp.
  - destruct (sample_cases _ _ _ H1)
      as [(_ & _ & rb & _ & Er & Ew & _) | (Er & Ew & _)]; rewrite Er, Ew;
      [destruct b; reflexivity | exact He].
  - intros Hx. specialize (Hap' Hx).
    destruct (sample_cases _ _ _ H1)
      as [(_ & _ & rb & _ & _ & _ & _ & Ea & _) | (_ & _ & Ea & _)];
      rewrite Ea; [discriminate | exact (Ha Hap')].
  - destruct (sample_cases _ _ _ H1)
      as [(_ & _ & rb & _ & _ & _ & _ & Ea & Et) | (Er & Ew & Ea & Et & _)];
      rewrite Ea, Et;
      [intros _; split; discriminate | rewrite Er, Ew; exact Hd].
Qed.

Lemma step_Inv (e : event) (s s' : I2cSlave) :
  Inv s -> step e s = Ok s' -> Inv s'.
Proof.
  intros Hs. destruct e as [c | c | | b]; simpl; intros H.
  - injection H as <-. apply detect_start_Inv, Hs.
  - injection H as <-. apply detect_stop_Inv, Hs.
  - eapply falling_scl_Inv; eassumption.
  - eapply rising_scl_Inv; eassumption.
Qed.

Lemma reachable_Inv (a : Z) (s : I2cSlave) : reachable a s -> Inv s.
Proof.
  apply reachable_ind.
  - apply init_Inv.
  - intros e s1 s2 H1 H2. exact (step_Inv e s1 s2 H1 H2).
Qed.

(** ** Rising clock edges, case by case *)

Lemma in_byte_iff (k : Z) :
  negb (0 =? k) && negb (k >=? 9) = true <-> k <> 0 /\ k < 9.
Proof.
  rewrite andb_true_iff, !negb_true_iff, Z.eqb_neq, Z.geb_leb, Z.leb_gt. lia.
Qed.

Lemma sample_idle (b : bool) (s : I2cSlave) :
  bit_pos s = 0 \/ 9 <= bit_pos s -> sample b s = Ok s.
Proof.
  intros Hk. unfold sample.
  destruct (negb (0 =? bit_pos s) && negb (bit_pos s >=? 9)) eqn:E;
    [apply in_byte_iff in E; lia | reflexivity].
Qed.

Lemma sample_bit (b : bool) (s : I2cSlave) (rb : Z) :
  bit_pos s <> 0 -> bit_pos s < 9 -> partial_byte s = Some rb ->
  sample b s =
    let s1 := set_recv_byte
                (Some (Z.lor rb (Z.shiftl (Z.b2z b) (8 - bit_pos s)))) s in
    if bit_pos s =? 8 then eighth_bit b s1 else Ok s1.
Proof.
  intros H0 H9 Hrb. unfold sample, partial_byte in *.
  destruct (in_byte_iff (bit_pos s)) as [_ ->]; [| lia].
  destruct s as [ad st sp bp ap rp wp ra v ac rbo at_ sd]; attrs; attrs in Hrb.
  destruct (1 =? bp); attrs;
    [injection Hrb as <- | rewrite Hrb; attrs]; reflexivity.
Qed.

Lemma ninth_clock_other (s : I2cSlave) :
  bit_pos s <> 9 -> ninth_clock s = s.
Proof.
  intros H. unfold ninth_clock. apply Z.eqb_neq in H.
  rewrite H, andb_false_r. rewrite H. reflexivity.
Qed.

(** ** Receiving the address byte *)

Lemma detect_start_receiving (s : I2cSlave) (acc : Z) :
  receiving 0 acc (_detect_start true s) /\
  addr (_detect_start true s) = addr s /\
  val (_detect_start true s) = val s /\
  read_phase (_detect_start true s) = read_phase s /\
  write_phase (_detect_start true s) = write_phase s.
Proof.
  destruct s; unfold receiving, _detect_start; attrs.
  repeat split; try reflexivity; lia.
Qed.

(** A falling edge in the address phase before the address is decoded:
    the counter moves and the flags stay. *)
Lemma receiving_falling (k acc : Z) (s : I2cSlave) :
  receiving k acc s -> 0 <= k <= 8 ->
  exists s1, _falling_scl s = Ok s1 /\
             bit_pos s1 = k + 1 /\ start s1 = false /\
             address_phase s1 = true /\ active s1 = Some false /\
             recv_byte s1 = recv_byte s /\
             addr s1 = addr s /\ val s1 = val s /\
             read_phase s1 = read_phase s /\ write_phase s1 = write_phase s.
Proof.
  intros (Hk & Hap & Hac & Hst & Hrb) Hr.
  destruct (falling_scl_total s) as [s1 H1];
    [intros _; rewrite Hac; discriminate |].
  exists s1. split; [exact H1 |].
  destruct (falling_scl_pos _ _ H1) as (Hs1 & Hb1).
  destruct (falling_scl_frame _ _ H1)
    as (Ea & _ & Eap & Erp & Ewp & _ & Ev & Eac & Erb & _).
  rewrite Hb1, Hs1, Eap, Eac, Erb, Ea, Ev, Erp, Ewp, Hap, Hac.
  repeat split; try reflexivity.
  rewrite Hk. unfold next_pos.
  destruct (Z.eqb_spec k 9); [lia |].
  destruct (Z.eqb_spec k 0) as [E0 | N0].
  - rewrite (Hst E0). reflexivity.
  - rewrite orb_true_r. reflexivity.
Qed.

(** One clock cycle for one of the first seven address bits. *)
Lemma receiving_clock_bit (k acc : Z) (b : bool) (s : I2cSlave) :
  receiving k acc s -> 0 <= k <= 6 ->
  exists s', run (clock_bit b) s = Ok s' /\
             receiving (k + 1) (shift_in k acc b) s' /\
             addr s' = addr s /\ val s' = val s /\
             read_phase s' = read_phase s /\ write_phase s' = write_phase s.
Proof.
  intros Hrec Hr.
  destruct (receiving_falling k acc s Hrec)
    as (s1 & H1 & Hb1 & Hs1 & Hap1 & Hac1 & Hrb1 & Ha1 & Hv1 & Hrp1 & Hwp1);
    [lia |].
  destruct Hrec as (Hk & Hap & Hac & Hst & Hrb).
  set (s2 := set_recv_byte (Some (shift_in k acc b)) s1).
  assert (Hsample : sample b s1 = Ok s2).
  { rewrite (sample_bit b s1 (if k =? 0 then 0 else acc)); try lia.
    - cbv zeta. rewrite Hb1.
      destruct (Z.eqb_spec (k + 1) 8); [lia | reflexivity].
    - unfold partial_byte. rewrite Hb1, Hrb1.
      destruct (Z.eqb_spec k 0) as [-> | N0]; [reflexivity |].
      destruct (Z.eqb_spec 1 (k + 1)); [lia | apply Hrb; lia]. }
  destruct (set_recv_byte_attrs (Some (shift_in k acc b)) s1)
    as (Ea & Eb & Eap & Erb & (Erp & Ewp & Eac & _)).
  fold s2 in Ea, Eb, Eap, Erb, Erp, Ewp, Eac.
  exists s2. split.
  - simpl. rewrite H1. simpl. unfold _rising_scl. rewrite Hsample. simpl.
    rewrite ninth_clock_other; [reflexivity | rewrite Eb; lia].
  - assert (Hv2 : val s2 = val s1) by (unfold s2; destruct s1; reflexivity).
    assert (Hs2 : start s2 = start s1) by (unfold s2; destruct s1; reflexivity).
    unfold receiving.
    rewrite Eb, Eap, Eac, Erb, Ea, Hv2, Erp, Ewp, Hs2.
    repeat split; try congruence; try lia.
Qed.

(** The first seven bits of the address byte, from any position on. *)
Lemma receiving_send_bits (bs : list bool) :
  forall (k acc : Z) (s : I2cSlave),
    receiving k acc s -> 0 <= k -> k + Z.of_nat (List.length bs) <= 7 ->
    exists s', run (send_bits bs) s = Ok s' /\
               receiving (k + Z.of_nat (List.length bs)) (assemble k acc bs) s' /\
               addr s' = addr s /\ val s' = val s /\
               read_phase s' = read_phase s /\
               write_phase s' = write_phase s.
Proof.
  induction bs as [| b bs IH]; intros k acc s Hrec Hk Hlen.
  - exists s. simpl. rewrite Z.add_0_r. repeat split; try reflexivity; apply Hrec.
  - cbn [List.length] in Hlen. rewrite Nat2Z.inj_succ in Hlen.
    destruct (receiving_clock_bit k acc b s Hrec)
      as (s1 & H1 & Hrec1 & Ha1 & Hv1 & Hrp1 & Hwp1); [lia |].
    destruct (IH (k + 1) (shift_in k acc b) s1 Hrec1)
      as (s2 & H2 & Hrec2 & Ha2 & Hv2 & Hrp2 & Hwp2); [lia | lia |].
    exists s2. split.
    + change (send_bits (b :: bs)) with (clock_bit b ++ send_bits bs).
      apply (run_app_Ok _ _ _ s1); assumption.
    + cbn [List.length assemble]. rewrite Nat2Z.inj_succ.
      replace (k + Z.succ (Z.of_nat (List.length bs)))
        with (k + 1 + Z.of_nat (List.length bs)) by lia.
      repeat split; try apply Hrec2; congruence.
Qed.

Lemma eighth_bit_total (b : bool) (s : I2cSlave) (rb : Z) :
  address_phase s = true -> recv_byte s = Some rb ->
  exists s', eighth_bit b s = Ok s'.
Proof.
  destruct s as [ad st sp bp ap rp wp ra v ac rbo at_ sd]; attrs.
  intros -> ->. unfold eighth_bit; attrs.
  destruct b; attrs; eexists; reflexivity.
Qed.

(** The eighth clock cycle of the address byte: the address is compared and
    the direction taken from the data line. *)
Lemma receiving_eighth_bit (acc : Z) (b : bool) (s : I2cSlave) :
  receiving 7 acc s ->
  exists s', run (clock_bit b) s = Ok s' /\
             bit_pos s' = 8 /\ start s' = false /\ address_phase s' = true /\
             recv_byte s' = Some (shift_in 7 acc b) /\
             recv_addr s' = Some (Z.shiftr (shift_in 7 acc b) 1) /\
             active s' = Some (Z.shiftr (shift_in 7 acc b) 1 =? addr s) /\
             read_phase s' = b /\ write_phase s' = negb b /\
             access_type s' = Some (if b then "Read" else "Write") /\
             addr s' = addr s /\ val s' = val s.
Proof.
  intros Hrec.
  destruct (receiving_falling 7 acc s Hrec)
    as (s1 & H1 & Hb1 & Hs1 & Hap1 & Hac1 & Hrb1 & Ha1 & Hv1 & _); [lia |].
  destruct Hrec as (_ & _ & _ & _ & Hrb).
  set (s2 := set_recv_byte (Some (shift_in 7 acc b)) s1).
  destruct (set_recv_byte_attrs (Some (shift_in 7 acc b)) s1)
    as (Ea & Eb & Eap & Erb & _).
  fold s2 in Ea, Eb, Eap, Erb.
  assert (Hv2 : val s2 = val s1) by (unfold s2; destruct s1; reflexivity).
  assert (Hs2 : start s2 = start s1) by (unfold s2; destruct s1; reflexivity).
  assert (Hsample : sample b s1 = eighth_bit b s2).
  { rewrite (sample_bit b s1 acc); try lia.
    - cbv zeta. rewrite Hb1. reflexivity.
    - unfold partial_byte. rewrite Hb1, Hrb1. apply Hrb. lia. }
  destruct (eighth_bit_total b s2 (shift_in 7 acc b)) as [s3 H3];
    [congruence | exact Erb |].
  destruct (eighth_bit_frame _ _ _ H3)
    as (Fa & Fs & _ & Fb & _ & Fv & Fap & Frb).
  destruct (eighth_bit_cases _ _ _ H3)
    as [(_ & rb & Drb & Dr & Dw & Dra & Dac & Dat) | (Hx & _)];
    [| congruence].
  assert (rb = shift_in 7 acc b) by congruence. subst rb.
  exists s3. split.
  - simpl. rewrite H1. simpl. unfold _rising_scl. rewrite Hsample, H3. simpl.
    rewrite ninth_clock_other; [reflexivity | lia].
  - rewrite Dac, Dra. repeat split; try congruence; lia.
Qed.

(** ** Bytes and their bits *)

Lemma forall_below (n : nat) (P : Z -> bool) :
  forallb P (map Z.of_nat (seq 0 n)) = true ->
  forall z, 0 <= z < Z.of_nat n -> P z = true.
Proof.
  intros H z Hz. rewrite forallb_forall in H. apply H.
  apply in_map_iff. exists (Z.to_nat z). split; [lia |].
  apply in_seq. lia.
Qed.

Lemma bits_msb_split (byte : Z) :
  bits_msb byte = high_bits byte ++ [Z.testbit byte 0].
Proof. reflexivity. Qed.

Lemma assemble_first (acc : Z) (b : bool) (bs : list bool) :
  assemble 0 acc (b :: bs) = assemble 0 0 (b :: bs).
Proof. reflexivity. Qed.

(** Shifting the eight bits of a byte in, most significant first, gives the
    byte back. *)
Lemma assemble_byte (byte acc : Z) :
  0 <= byte < 256 ->
  shift_in 7 (assemble 0 acc (high_bits byte)) (Z.testbit byte 0) = byte.
Proof.
  intros H. unfold high_bits. cbn [map]. rewrite assemble_first.
  apply Z.eqb_eq.
  apply (forall_below 256
           (fun z => shift_in 7 (assemble 0 0 (high_bits z)) (Z.testbit z 0)
                     =? z));
    [vm_compute; reflexivity | exact H].
Qed.

Lemma address_byte_fields (a : Z) (dir : bool) :
  0 <= a <= 0x7f ->
  0 <= address_byte a dir < 256 /\
  Z.shiftr (address_byte a dir) 1 = a /\
  Z.testbit (address_byte a dir) 0 = dir.
Proof.
  intros H.
  assert (Hok : address_byte_ok a dir = true).
  { destruct dir;
      [apply (forall_below 128 (fun z => address_byte_ok z true))
      | apply (forall_below 128 (fun z => address_byte_ok z false))];
      try (vm_compute; reflexivity); simpl; lia. }
  unfold address_byte_ok in Hok.
  apply andb_true_iff in Hok as (Hok & Hd).
  apply andb_true_iff in Hok as (Hok & Hs).
  apply andb_true_iff in Hok as (Hlo & Hhi).
  apply Z.leb_le in Hlo. apply Z.ltb_lt in Hhi. apply Z.eqb_eq in Hs.
  apply Bool.eqb_prop in Hd. auto.
Qed.

(** The whole address byte after a Start, from any state. *)
Lemma address_byte_received (s : I2cSlave) (byte : Z) :
  0 <= byte < 256 ->
  exists s', run (Start :: send_byte byte) s = Ok s' /\
             bit_pos s' = 8 /\ start s' = false /\ address_phase s' = true /\
             recv_byte s' = Some byte /\
             recv_addr s' = Some (Z.shiftr byte 1) /\
             active s' = Some (Z.shiftr byte 1 =? addr s) /\
             read_phase s' = Z.testbit byte 0 /\
             write_phase s' = negb (Z.testbit byte 0) /\
             access_type s' <> None /\
             addr s' = addr s /\ val s' = val s.
Proof.
  intros Hbyte.
  destruct (detect_start_receiving s 0) as (Hrec0 & Ha0 & Hv0 & _).
  destruct (receiving_send_bits (high_bits byte) 0 0 _ Hrec0)
    as (s7 & H7 & Hrec7 & Ha7 & Hv7 & _); [lia | simpl; lia |].
  change (0 + Z.of_nat (List.length (high_bits byte))) with 7 in Hrec7.
  destruct (receiving_eighth_bit _ (Z.testbit byte 0) s7 Hrec7)
    as (s8 & H8 & Hb & Hst & Hap & Hrb & Hra & Hac & Hrp & Hwp & Hat
        & Ha8 & Hv8).
  rewrite (assemble_byte byte 0 Hbyte) in Hrb, Hra, Hac.
  exists s8. split.
  - cbn [run step]. cbn [bind]. unfold send_byte. rewrite bits_msb_split.
    unfold send_bits. rewrite flat_map_app.
    apply (run_app_Ok _ _ _ s7); [exact H7 |].
    cbn [flat_map]. rewrite app_nil_r. exact H8.
  - rewrite Hac, Hat, Ha7, Ha0.
    repeat split; try assumption; congruence.
Qed.

(** ** The acknowledge slot of the address byte *)

Lemma address_ack_level (s s' : I2cSlave) (m : bool) :
  bit_pos s = 8 -> address_phase s = true -> active s = Some m ->
  _falling_scl s = Ok s' ->
  bit_pos s' = 9 /\ sda_i s' = (if m || write_phase s then 0 else 1).
Proof.
  intros Hb Hap Hac H.
  destruct (falling_scl_pos _ _ H) as (_ & Hb').
  rewrite Hb, orb_true_r in Hb'. change (next_pos 8) with 9 in Hb'.
  split; [exact Hb' |].
  destruct (falling_scl_sda _ _ H) as (ack & Hack & ->).
  unfold ack_wanted in Hack. rewrite Hap, Hac in Hack. simpl in Hack.
  injection Hack as <-. rewrite Hb'.
  destruct (m || write_phase s); [reflexivity |].
  rewrite andb_false_r. reflexivity.
Qed.

(** ** Sending read data *)

Lemma eighth_bit_data (b : bool) (s : I2cSlave) :
  address_phase s = false -> write_phase s = false -> eighth_bit b s = Ok s.
Proof.
  intros Hap Hwp. unfold eighth_bit. rewrite Hap. cbn [bind].
  rewrite Hap, Hwp. reflexivity.
Qed.

Lemma next_pos_range (k : Z) : 1 <= k <= 9 -> 1 <= next_pos k <= 9.
Proof. unfold next_pos. destruct (Z.eqb_spec k 9); lia. Qed.

(** One clock cycle of a read: the level driven after the falling edge and
    the state after the rising edge. *)
Lemma sending_clock_bit (k : Z) (b : bool) (s : I2cSlave) :
  sending k s -> 1 <= k <= 9 ->
  exists s1 s2,
    _falling_scl s = Ok s1 /\ _rising_scl b s1 = Ok s2 /\
    sda_i s1 = sent_level (val s) (next_pos k) /\
    sending (next_pos k) s2 /\
    val s2 = val_after (val s) (next_pos k) /\ addr s2 = addr s.
Proof.
  intros (Hb & Hrp & Hwp & Hap & Hrb) Hk.
  pose proof (next_pos_range k Hk) as Hk'.
  destruct (falling_scl_total s) as [s1 H1]; [rewrite Hap; discriminate |].
  destruct (falling_scl_pos _ _ H1) as (_ & Hb1).
  destruct (falling_scl_frame _ _ H1)
    as (Ea & _ & Eap & Erp & Ewp & _ & Ev & _ & Erb & _).
  assert (Hpos : bit_pos s1 = next_pos k).
  { rewrite Hb1, Hb. destruct (Z.eqb_spec k 0); [lia |].
    rewrite orb_true_r. reflexivity. }
  assert (Hsda : sda_i s1 = sent_level (val s) (next_pos k)).
  { destruct (falling_scl_sda _ _ H1) as (ack & Hack & ->).
    unfold ack_wanted in Hack. rewrite Hap, Hwp in Hack.
    injection Hack as <-. rewrite Hrp, Hpos. unfold sent_level.
    destruct (Z.eqb_spec (next_pos k) 9) as [-> | N9]; [reflexivity |].
    cbn [andb].
    destruct (in_byte_iff (next_pos k)) as [_ ->]; [reflexivity | lia]. }
  exists s1. unfold _rising_scl, val_after.
  destruct (Z.eqb_spec (next_pos k) 9) as [E9 | N9].
  - (* the ninth clock: the master's acknowledge is sampled *)
    rewrite sample_idle by lia. simpl.
    eexists. split; [exact H1 |]. split; [reflexivity |].
    split; [exact Hsda |].
    destruct (ninth_clock_frame s1)
      as (Fa & _ & _ & Fb & _ & Frp & Fwp & _).
    destruct (ninth_clock_val s1) as (Fv & Fap).
    rewrite Erp, Eap, Hrp, Hap, Hpos, E9 in Fv. simpl in Fv.
    rewrite Hpos, E9 in Fap. simpl in Fap.
    unfold sending. rewrite Fb, Frp, Fwp, Fap, Fv, Fa, Hpos, Erp, Ewp, Ev, Ea.
    repeat split; try assumption; try reflexivity; lia.
  - (* a data bit: the observed level is shifted into [recv_byte] *)
    assert (Hpb : exists rb, partial_byte s1 = Some rb).
    { unfold partial_byte. rewrite Hpos, Erb.
      destruct (Z.eqb_spec 1 (next_pos k)) as [_ | N1]; [eexists; reflexivity |].
      destruct (recv_byte s) as [rb |] eqn:E; [eexists; reflexivity |].
      exfalso. apply Hrb; [| reflexivity].
      unfold next_pos in N1, N9. destruct (Z.eqb_spec k 9); lia. }
    destruct Hpb as [rb Hpb].
    rewrite (sample_bit b s1 rb) by (try exact Hpb; lia). cbv zeta.
    set (s2 := set_recv_byte _ s1).
    destruct (set_recv_byte_attrs
                (Some (Z.lor rb (Z.shiftl (Z.b2z b) (8 - bit_pos s1)))) s1)
      as (Fa & Fb & Fap & Frb & (Frp & Fwp & _)).
    fold s2 in Fa, Fb, Fap, Frb, Frp, Fwp.
    assert (Fv : val s2 = val s1) by (unfold s2; destruct s1; reflexivity).
    assert (Hs2 : (if bit_pos s1 =? 8 then eighth_bit b s2 else Ok s2) = Ok s2).
    { destruct (bit_pos s1 =? 8); [| reflexivity].
      apply eighth_bit_data; congruence. }
    rewrite Hs2. simpl. rewrite ninth_clock_other by lia.
    exists s2. split; [exact H1 |]. split; [reflexivity |].
    split; [exact Hsda |].
    unfold sending. rewrite Fb, Frp, Fwp, Fap, Frb, Fv, Fa.
    repeat split; congruence.
Qed.

Lemma driven_clock_bit (b : bool) (t : list event) (s s1 s2 : I2cSlave) :
  _falling_scl s = Ok s1 -> _rising_scl b s1 = Ok s2 ->
  driven (clock_bit b ++ t) s = option_map (cons (sda_i s1)) (driven t s2) /\
  run (clock_bit b) s = Ok s2.
Proof.
  intros H1 H2. simpl. rewrite H1. simpl. rewrite H2. simpl.
  destruct (driven t s2); split; reflexivity.
Qed.

(** Any number of clock cycles of a read: the levels on the driven line. *)
Lemma sending_send_bits (bs : list bool) :
  forall (k : Z) (s : I2cSlave),
    sending k s -> 1 <= k <= 9 ->
    driven (send_bits bs) s = Some (sent (val s) k (List.length bs)).
Proof.
  induction bs as [| b bs IH]; intros k s Hs Hk; [reflexivity |].
  destruct (sending_clock_bit k b s Hs Hk)
    as (s1 & s2 & H1 & H2 & Hsda & Hs2 & Hv & _).
  change (send_bits (b :: bs)) with (clock_bit b ++ send_bits bs).
  destruct (driven_clock_bit b (send_bits bs) s s1 s2 H1 H2) as (-> & _).
  rewrite (IH _ _ Hs2 (next_pos_range k Hk)), Hv, Hsda. reflexivity.
Qed.

(** The acknowledge cycle that ends the address byte of a read. *)
Lemma read_address_ack (s : I2cSlave) (m ack : bool) :
  bit_pos s = 8 -> address_phase s = true -> active s = Some m ->
  read_phase s = true -> write_phase s = false ->
  exists s1 s2,
    _falling_scl s = Ok s1 /\ _rising_scl ack s1 = Ok s2 /\
    sda_i s1 = (if m then 0 else 1) /\
    sending 9 s2 /\ val s2 = val s /\ addr s2 = addr s.
Proof.
  intros Hb Hap Hac Hrp Hwp.
  destruct (falling_scl_total s) as [s1 H1]; [rewrite Hac; discriminate |].
  destruct (address_ack_level s s1 m Hb Hap Hac H1) as (Hb1 & Hsda).
  rewrite Hwp, orb_false_r in Hsda.
  destruct (falling_scl_frame _ _ H1)
    as (Ea & _ & Eap & Erp & Ewp & _ & Ev & _).
  exists s1, (ninth_clock s1).
  unfold _rising_scl. rewrite sample_idle by lia.
  split; [exact H1 |]. split; [reflexivity |]. split; [exact Hsda |].
  destruct (ninth_clock_frame s1) as (Fa & _ & _ & Fb & _ & Frp & Fwp & _).
  destruct (ninth_clock_val s1) as (Fv & Fap).
  rewrite Eap, Hap, andb_false_r in Fv. cbn [andb] in Fv.
  rewrite Hb1 in Fap. cbn in Fap.
  unfold sending. rewrite Fb, Frp, Fwp, Fap, Fv, Fa.
  repeat split; try congruence; lia.
Qed.

(** A read transaction from any state: the address byte, then the levels on
    the driven line during its acknowledge slot and the clock cycles after. *)
Lemma read_transaction (s : I2cSlave) (a : Z) (ack : bool) (bs : list bool) :
  0 <= a <= 0x7f ->
  exists s8,
    run (Start :: send_byte (address_byte a true)) s = Ok s8 /\
    bit_pos s8 = 8 /\ read_phase s8 = true /\ write_phase s8 = false /\
    active s8 = Some (a =? addr s) /\
    driven (clock_bit ack ++ send_bits bs) s8 =
      Some ((if a =? addr s then 0 else 1)
              :: sent (val s) 9 (List.length bs)).
Proof.
  intros Ha.
  destruct (address_byte_fields a true Ha) as (Hbyte & Hsh & Hbit).
  destruct (address_byte_received s _ Hbyte)
    as (s8 & H8 & Hb & _ & Hap & _ & _ & Hac & Hrp & Hwp & _ & _ & Hv).
  rewrite Hsh in Hac. rewrite Hbit in Hrp, Hwp. cbn in Hwp.
  exists s8. repeat split; try assumption.
  destruct (read_address_ack s8 (a =? addr s) ack Hb Hap Hac Hrp Hwp)
    as (s1 & s2 & H1 & H2 & Hsda & Hs2 & Hv2 & _).
  destruct (driven_clock_bit ack (send_bits bs) s8 s1 s2 H1 H2) as (-> & _).
  rewrite (sending_send_bits bs 9 s2 Hs2) by lia.
  rewrite Hsda, Hv2, Hv. reflexivity.
Qed.

(** ** The data register and the own address along a run *)

Lemma step_val (e : event) (s s' : I2cSlave) :
  step e s = Ok s' ->
  val s' = (if read_completion e s then val s + 1 else val s).
Proof.
  destruct e as [c | c | | b]; cbn [step read_completion]; intros H.
  - injection H as <-. destruct c, s; reflexivity.
  - injection H as <-. destruct c, s; reflexivity.
  - apply falling_scl_frame in H. apply H.
  - apply rising_scl_val in H. exact H.
Qed.

Lemma step_addr (e : event) (s s' : I2cSlave) :
  step e s = Ok s' -> addr s' = addr s.
Proof.
  destruct e as [c | c | | b]; cbn [step]; intros H.
  - injection H as <-. destruct c, s; reflexivity.
  - injection H as <-. destruct c, s; reflexivity.
  - apply falling_scl_frame in H. apply H.
  - apply rising_scl_frame in H. apply H.
Qed.

Lemma run_val (t : list event) :
  forall s s', run t s = Ok s' -> val s' = val s + completed_reads t s.
Proof.
  induction t as [| e t IH]; intros s s' H; simpl in *.
  - injection H as <-. lia.
  - apply bind_Ok in H as (s1 & H1 & H). rewrite H1.
    rewrite (IH _ _ H), (step_val _ _ _ H1).
    destruct (read_completion e s); lia.
Qed.

Lemma run_addr (t : list event) :
  forall s s', run t s = Ok s' -> addr s' = addr s.
Proof.
  induction t as [| e t IH]; intros s s' H; simpl in *.
  - injection H as <-. reflexivity.
  - apply bind_Ok in H as (s1 & H1 & H).
    rewrite (IH _ _ H). exact (step_addr _ _ _ H1).
Qed.

Lemma fresh_addr (a : Z) : 0 <= a <= 0x7f -> addr (fresh a) = a.
Proof.
  intros H. cbn [fresh addr]. change 0x7f with (Z.ones 7).
  rewrite Z.land_ones by lia. apply Z.mod_small. change (2 ^ 7) with 128. lia.
Qed.

Lemma val_bit_testbit (v k : Z) :
  k <= 8 -> val_bit v k = Z.b2z (Z.testbit v (8 - k)).
Proof.
  intros Hk. unfold val_bit. change 0x1 with (Z.ones 1).
  rewrite Z.land_ones by lia. change (2 ^ 1) with 2.
  rewrite <- Z.bit0_mod, Z.shiftr_spec by lia. reflexivity.
Qed.

(** ** Concrete runs and two more facts about the reactions *)

(** The acknowledge slot of a write address byte, whatever the address:
    [write_phase] alone makes [_falling_scl] pull the line low. *)
Lemma write_address_acked (s : I2cSlave) (a : Z) :
  0 <= a <= 0x7f ->
  exists s8 s9 : I2cSlave,
    run (Start :: send_byte (address_byte a false)) s = Ok s8 /\
    active s8 = Some (a =? addr s) /\ write_phase s8 = true /\
    step FallingEdge_scl s8 = Ok s9 /\ bit_pos s9 = 9 /\ sda_i s9 = 0.
Proof.
  intros Ha.
  destruct (address_byte_fields a false Ha) as (Hbyte & Hsh & Hbit).
  destruct (address_byte_received s _ Hbyte)
    as (s8 & H8 & Hb & _ & Hap & _ & _ & Hac & _ & Hwp & _).
  rewrite Hbit in Hwp. rewrite Hsh in Hac. cbn in Hwp.
  destruct (falling_scl_total s8) as [s9 H9]; [rewrite Hac; discriminate |].
  destruct (address_ack_level s8 s9 _ Hb Hap Hac H9) as (Hb9 & Hsda).
  rewrite Hwp, orb_true_r in Hsda.
  exists s8, s9. repeat split; assumption.
Qed.

Lemma first_byte_sent_reachable : reachable 0x45 first_byte_sent.
Proof.
  exists (read_bytes 0), (fresh 0x45). split; vm_compute; reflexivity.
Qed.

Lemma write_address_decoded_reachable : reachable 0x45 write_address_decoded.
Proof.
  exists (Start :: send_byte 0x8A), (fresh 0x45).
  split; vm_compute; reflexivity.
Qed.

Lemma write_stopped_reachable : reachable 0x45 write_stopped.
Proof.
  apply (reachable_run 0x45
           (clock_bit false ++ send_byte 0x00 ++ clock_bit false ++ [Stop])
           write_address_decoded);
    [exact write_address_decoded_reachable | vm_compute; reflexivity].
Qed.

(** The eight levels of a data byte are the low eight bits of [val], most
    significant first. *)
Lemma sent_byte (v : Z) : sent v 9 8 = map Z.b2z (bits_msb v).
Proof.
  change (sent v 9 8)
    with [val_bit v 1; val_bit v 2; val_bit v 3; val_bit v 4;
          val_bit v 5; val_bit v 6; val_bit v 7; val_bit v 8].
  rewrite !val_bit_testbit by lia. reflexivity.
Qed.

(** Past the address byte [_falling_scl] does not read [active] at all. *)
Lemma falling_scl_ignores_active (m : option bool) (s s' : I2cSlave) :
  address_phase s = false -> _falling_scl s = Ok s' ->
  _falling_scl (set_active m s) = Ok (set_active m s').
Proof.
  intros Hap H. apply falling_scl_spec in H as (ack & Hack & ->).
  unfold ack_wanted in Hack. rewrite Hap in Hack. injection Hack as <-.
  destruct s as [ad st sp bp ap rp wp ra v ac rb at_ sd]. attrs in Hap.
  subst ap.
  unfold _falling_scl, advance, drive, drive_level, ack_wanted, val_bit; attrs.
  destruct (st || negb (bp =? 0)); attrs;
    [destruct (bp =? 9); attrs |];
    destruct wp; attrs;
    repeat match goal with
           | |- context [if ?c then _ else _] => destruct c; attrs
           end;
    reflexivity.
Qed.

(** [address_phase] after a rising clock edge. *)
Lemma rising_scl_address_phase (b : bool) (s s' : I2cSlave) :
  _rising_scl b s = Ok s' ->
  address_phase s' = (if bit_pos s =? 9 then false else address_phase s).
Proof.
  unfold _rising_scl. intros H. apply bind_Ok in H as (s1 & H1 & H).
  injection H as <-. destruct (ninth_clock_val s1) as (_ & ->).
  apply sample_frame in H1 as (_ & _ & _ & -> & _ & _ & ->). reflexivity.
Qed.

(** The rising edge at the eighth bit of an address byte: exactly one
    direction flag, and [address_phase] still set. *)
Lemma rising_scl_eighth_address_bit (b : bool) (s s' : I2cSlave) :
  address_phase s = true -> bit_pos s = 8 -> _rising_scl b s = Ok s' ->
  address_phase s' = true /\ read_phase s' = b /\ write_phase s' = negb b.
Proof.
  intros Hap Hb H.
  pose proof (rising_scl_address_phase b s s' H) as Hap'.
  rewrite Hb, Hap in Hap'. split; [exact Hap' |].
  unfold _rising_scl in H. apply bind_Ok in H as (s1 & H1 & H).
  injection H as <-.
  destruct (ninth_clock_frame s1) as (_ & _ & _ & _ & _ & -> & -> & _).
  apply sample_spec in H1. rewrite Hb in H1.
  rewrite (proj2 (in_byte_iff 8)) in H1 by lia.
  destruct H1 as (rb & _ & H1). cbv zeta in H1. rewrite Z.eqb_refl in H1.
  destruct (set_recv_byte_attrs
              (Some (Z.lor rb (Z.shiftl (Z.b2z b) (8 - 8)))) s)
    as (_ & _ & Eap & _).
  apply eighth_bit_cases in H1
    as [(_ & rb' & _ & Hr & Hw & _) | (Hx & _)]; [auto | congruence].
Qed.

(** * The properties of the specification, one by one *)

(** C1: address round trip.  After a Start, when the eight bits sampled on
    the rising clock edges are those of [(a << 1) | dir] for a 7-bit [a],
    then at the eighth bit the slave has that byte in its shift register,
    has decoded the address as the top seven bits of it, has set
    [address_matched] (here [active]) to [a == own address], and has set
    [read_phase] for [dir = 1] and [write_phase] for [dir = 0], the other
    one being clear; all of this still holds once the following falling
    edge has moved [bit_pos] to 9.  The state the transaction starts from
    is arbitrary. *)
Theorem address_round_trip (s : I2cSlave) (a : Z) (dir : bool) :
  0 <= a <= 0x7f ->
  exists s8 s9 : I2cSlave,
    run (Start :: send_byte (address_byte a dir)) s = Ok s8 /\
    bit_pos s8 = 8 /\
    recv_byte s8 = Some (address_byte a dir) /\
    recv_addr s8 = Some (Z.shiftr (address_byte a dir) 1) /\
    recv_addr s8 = Some a /\
    active s8 = Some (a =? addr s) /\
    read_phase s8 = dir /\ write_phase s8 = negb dir /\
    step FallingEdge_scl s8 = Ok s9 /\
    bit_pos s9 = 9 /\
    active s9 = Some (a =? addr s) /\
    read_phase s9 = dir /\ write_phase s9 = negb dir.
Proof.
  intros Ha.
  destruct (address_byte_fields a dir Ha) as (Hbyte & Hsh & Hbit).
  destruct (address_byte_received s _ Hbyte)
    as (s8 & H8 & Hb & _ & Hap & Hrb & Hra & Hac & Hrp & Hwp & _).
  rewrite Hbit in Hrp, Hwp.
  destruct (falling_scl_total s8) as [s9 H9]; [rewrite Hac; discriminate |].
  destruct (address_ack_level s8 s9 _ Hb Hap Hac H9) as (Hb9 & _).
  destruct (falling_scl_frame _ _ H9)
    as (_ & _ & _ & Erp & Ewp & _ & _ & Eac & _).
  exists s8, s9. rewrite Erp, Ewp, Eac, Hac, Hra, Hsh.
  repeat split; assumption.
Qed.

Lemma address_round_trip_witness :
  exists s8 s9 : I2cSlave,
    run (Start :: send_byte (address_byte 0x45 true)) (fresh 0x45) = Ok s8 /\
    bit_pos s8 = 8 /\
    recv_byte s8 = Some (address_byte 0x45 true) /\
    recv_addr s8 = Some (Z.shiftr (address_byte 0x45 true) 1) /\
    recv_addr s8 = Some 0x45 /\
    active s8 = Some (0x45 =? addr (fresh 0x45)) /\
    read_phase s8 = true /\ write_phase s8 = negb true /\
    step FallingEdge_scl s8 = Ok s9 /\
    bit_pos s9 = 9 /\
    active s9 = Some (0x45 =? addr (fresh 0x45)) /\
    read_phase s9 = true /\ write_phase s9 = negb true.
Proof. apply (address_round_trip (fresh 0x45) 0x45 true). lia. Defined.

(** C2: the claim is that a write to a foreign address leaves the driven
    line released in the acknowledge slot.  The code does not: own address
    0x45, first byte 0x10 (address 0x08, write) gives [active = False] and
    [write_phase = True] at the eighth bit, and the next falling edge, at
    [bit_pos = 9], drives [sda_i] to 0. *)
Theorem mismatched_write_address_is_acked :
  exists s8 s9 : I2cSlave,
    __init__ 0x45 = Ok (fresh 0x45) /\
    run (Start :: send_byte 0x10) (fresh 0x45) = Ok s8 /\
    recv_addr s8 = Some 0x08 /\ active s8 = Some false /\
    write_phase s8 = true /\ read_phase s8 = false /\
    step FallingEdge_scl s8 = Ok s9 /\ bit_pos s9 = 9 /\ sda_i s9 = 0.
Proof. do 2 eexists. vm_compute. repeat split; reflexivity. Qed.

(** C3, as the code has it: [val] changes only in a rising clock edge taken
    at [bit_pos = 9] with [read_phase] set and [address_phase] clear; that
    edge adds exactly 1, as an unbounded integer and whatever level the
    master puts on the data line; along a run [val] grows by the number of
    such edges; and in a reachable state with [write_phase] set no reaction
    changes it. *)
Theorem data_register_increment (a : Z) (e : event) (s s' : I2cSlave) :
  reachable a s -> step e s = Ok s' ->
  val s' = (if read_completion e s then val s + 1 else val s) /\
  (forall ack ack' : bool,
     read_completion (RisingEdge_scl ack) s
     = read_completion (RisingEdge_scl ack') s) /\
  (write_phase s = true -> val s' = val s) /\
  (forall (t : list event) (s'' : I2cSlave),
     run t s = Ok s'' -> val s'' = val s + completed_reads t s).
Proof.
  intros Hr H. pose proof (reachable_Inv a s Hr) as [_ He _ _].
  split; [exact (step_val e s s' H) |].
  split; [reflexivity |]. split.
  - intros Hwp. rewrite (step_val e s s' H).
    rewrite Hwp, andb_true_r in He.
    destruct e; cbn [read_completion]; rewrite ?He; reflexivity.
  - intros t s''. apply run_val.
Qed.

Lemma data_register_increment_witness :
  val first_byte_sent = 0x81 /\
  exists s' : I2cSlave,
    step (RisingEdge_scl true) first_byte_sent = Ok s' /\ val s' = 0x82.
Proof.
  split; [reflexivity |].
  eexists. split; [vm_compute; reflexivity |].
  exact (proj1 (data_register_increment 0x45 (RisingEdge_scl true)
                  first_byte_sent _ first_byte_sent_reachable eq_refl)).
Defined.

(** C3, as the specification states it, fails: after the byte 0xFF has been
    sent, the rising edge of its acknowledge slot leaves 0x100 in [val], not
    0x00.  Own address 0x45; a read of 127 bytes from the seed 0x81. *)
Lemma data_register_does_not_wrap :
  exists s s' : I2cSlave,
    run (read_bytes 126) (fresh 0x45) = Ok s /\
    val s = 0xFF /\ read_phase s = true /\ address_phase s = false /\
    bit_pos s = 9 /\
    step (RisingEdge_scl false) s = Ok s' /\
    val s' = 0x100 /\ val s' <> (val s + 1) mod 256.
Proof.
  do 2 eexists. vm_compute. repeat split; try reflexivity. discriminate.
Qed.

(** C4, as the code has it: in every reachable state [read_phase] and
    [write_phase] are not both set, while [address_phase] may hold together
    with one of them: the rising edge at the eighth bit of an address byte
    sets exactly one of the two, by the direction bit, and leaves
    [address_phase] set.  [address_phase] is set by a Start and by no other
    reaction (a Start also sets the pending start and [bit_pos = 0] and
    clears [active]), and it is cleared by the rising edge at [bit_pos = 9]
    and by no other reaction. *)
Theorem phase_flags_exclusive (a : Z) (s : I2cSlave) :
  reachable a s ->
  read_phase s && write_phase s = false /\
  (forall (b : bool) (s' : I2cSlave),
     address_phase s = true -> bit_pos s = 8 ->
     step (RisingEdge_scl b) s = Ok s' ->
     address_phase s' = true /\ read_phase s' = b /\ write_phase s' = negb b) /\
  (address_phase (_detect_start true s) = true /\
   start (_detect_start true s) = true /\
   bit_pos (_detect_start true s) = 0 /\
   active (_detect_start true s) = Some false) /\
  (forall (e : event) (s' : I2cSlave),
     step e s = Ok s' -> address_phase s = false ->
     (address_phase s' = true <-> e = Start)) /\
  (forall (e : event) (s' : I2cSlave),
     step e s = Ok s' -> address_phase s = true ->
     (address_phase s' = false <->
      (exists b, e = RisingEdge_scl b) /\ bit_pos s = 9)).
Proof.
  intros Hr. pose proof (reachable_Inv a s Hr) as [_ He _ _].
  split; [exact He |].
  split; [intros b s' Hap Hb H;
          exact (rising_scl_eighth_address_bit b s s' Hap Hb H) |].
  split; [destruct s; repeat split; reflexivity |].
  split.
  - intros e s' H Hap. destruct e as [c | c | | b]; cbn [step] in H.
    + injection H as <-.
      destruct c; [split; [reflexivity | intros _; destruct s; reflexivity] |].
      cbn [_detect_start]. rewrite Hap. split; discriminate.
    + injection H as <-.
      assert (Hs : address_phase (_detect_stop c s) = address_phase s)
        by (destruct c, s; reflexivity).
      rewrite Hs, Hap. split; discriminate.
    + apply falling_scl_frame in H as (_ & _ & -> & _).
      rewrite Hap. split; discriminate.
    + rewrite (rising_scl_address_phase b s s' H), Hap.
      destruct (bit_pos s =? 9); split; discriminate.
  - intros e s' H Hap. destruct e as [c | c | | b]; cbn [step] in H.
    + injection H as <-.
      assert (Hs : address_phase (_detect_start c s) = true)
        by (destruct c, s; [reflexivity | exact Hap]).
      rewrite Hs. split; [discriminate | intros ((b & Hb) & _); discriminate].
    + injection H as <-.
      assert (Hs : address_phase (_detect_stop c s) = address_phase s)
        by (destruct c, s; reflexivity).
      rewrite Hs, Hap.
      split; [discriminate | intros ((b & Hb) & _); discriminate].
    + apply falling_scl_frame in H as (_ & _ & -> & _). rewrite Hap.
      split; [discriminate | intros ((b & Hb) & _); discriminate].
    + rewrite (rising_scl_address_phase b s s' H), Hap.
      destruct (Z.eqb_spec (bit_pos s) 9) as [E9 | N9].
      * split; [intros _; split; [exists b; reflexivity | exact E9]
               | reflexivity].
      * split; [discriminate | intros (_ & E9); contradiction].
Qed.

Lemma phase_flags_exclusive_witness :
  read_phase write_address_decoded && write_phase write_address_decoded
  = false /\
  exists s',
    step (RisingEdge_scl false) write_address_decoded = Ok s' /\
    (address_phase s' = false <->
     (exists b, RisingEdge_scl false = RisingEdge_scl b) /\
     bit_pos write_address_decoded = 9).
Proof.
  destruct (phase_flags_exclusive 0x45 write_address_decoded
              write_address_decoded_reachable)
    as (He & _ & _ & _ & Hclear).
  split; [exact He |].
  eexists. split; [vm_compute; reflexivity |].
  apply (Hclear (RisingEdge_scl false)); [vm_compute; reflexivity | reflexivity].
Defined.

(** C4, as the specification states it, fails twice over.  At the eighth bit
    of a write address byte [address_phase] and [write_phase] are both set;
    and a Start that follows a write leaves [write_phase] set while it sets
    [address_phase]. *)
Lemma address_phase_overlaps_phase_flags :
  ~ (forall s : I2cSlave,
       reachable 0x45 s -> address_phase s = true ->
       read_phase s = false /\ write_phase s = false) /\
  (reachable 0x45 (_detect_start true write_stopped) /\
   address_phase (_detect_start true write_stopped) = true /\
   write_phase (_detect_start true write_stopped) = true).
Proof.
  split.
  - intros H.
    destruct (H write_address_decoded write_address_decoded_reachable eq_refl)
      as [_ Hw].
    discriminate Hw.
  - split; [| split; reflexivity].
    apply (reachable_step 0x45 Start write_stopped);
      [exact write_stopped_reachable | reflexivity].
Qed.

(** C5: the bit counter.  In every reachable state [bit_pos] is between 0
    and 9; a reaction that brings it to 0 from another value is a Start;
    and a falling clock edge taken while a start is pending or [bit_pos] is
    not 0 does not raise, moves [bit_pos] by one step, from 9 to 1 and
    otherwise up by 1, and clears the pending start. *)
Theorem bit_position_steps (a : Z) (s : I2cSlave) :
  reachable a s ->
  0 <= bit_pos s <= 9 /\
  (forall (e : event) (s' : I2cSlave),
     step e s = Ok s' -> bit_pos s' = 0 -> bit_pos s <> 0 -> e = Start) /\
  (start s = true \/ bit_pos s <> 0 ->
   exists s', step FallingEdge_scl s = Ok s' /\
              bit_pos s' = (if bit_pos s =? 9 then 1 else bit_pos s + 1) /\
              start s' = false).
Proof.
  intros Hr. pose proof (reachable_Inv a s Hr) as [Hp _ Hac _].
  split; [exact Hp |]. split.
  - intros e s' H H0 Hn. destruct e as [c | c | | b]; cbn [step] in H.
    + destruct c; [reflexivity |]. injection H as <-. contradiction.
    + injection H as <-. destruct c, s; contradiction.
    + apply falling_scl_pos in H as (_ & H). rewrite H0 in H.
      unfold next_pos in H.
      destruct (start s || negb (bit_pos s =? 0)); [| congruence].
      destruct (Z.eqb_spec (bit_pos s) 9); lia.
    + apply rising_scl_frame in H as (_ & _ & _ & H & _). congruence.
  - intros Hact. destruct (falling_scl_total s Hac) as [s' H].
    exists s'. split; [exact H |].
    apply falling_scl_pos in H as (Hs & Hb). split; [| exact Hs].
    rewrite Hb. fold (next_pos (bit_pos s)).
    destruct Hact as [-> | Hn]; [reflexivity |].
    apply Z.eqb_neq in Hn. rewrite Hn, orb_true_r. reflexivity.
Qed.

Lemma bit_position_steps_witness :
  0 <= bit_pos (_detect_start true (fresh 0x45)) <= 9 /\
  exists s', step FallingEdge_scl (_detect_start true (fresh 0x45)) = Ok s' /\
             bit_pos s' = 1 /\ start s' = false.
Proof.
  assert (Hr : reachable 0x45 (_detect_start true (fresh 0x45)))
    by (exists [Start], (fresh 0x45); split; reflexivity).
  destruct (bit_position_steps 0x45 _ Hr) as (Hp & _ & Hf).
  split; [exact Hp |]. apply Hf. left. reflexivity.
Defined.

(** C6: read data.  In a reachable state with [read_phase] set, and either
    past the address byte or in an address byte that has not matched (so
    that the slave is not about to acknowledge its own address), a falling
    clock edge does not raise; when it moves [bit_pos] to a position in
    [1, 8] it drives bit [8 - bit_pos] of [val], so the most significant bit
    goes first; and when it moves [bit_pos] to 9 it leaves the line
    released. *)
Theorem read_phase_drives_data_bits (a : Z) (s : I2cSlave) :
  reachable a s -> read_phase s = true ->
  address_phase s = false \/ active s = Some false ->
  exists s',
    step FallingEdge_scl s = Ok s' /\
    (1 <= bit_pos s' <= 8 ->
     sda_i s' = Z.land (Z.shiftr (val s') (8 - bit_pos s')) 1 /\
     sda_i s' = Z.b2z (Z.testbit (val s') (8 - bit_pos s'))) /\
    (bit_pos s' = 9 -> sda_i s' = 1).
Proof.
  intros Hr Hrp Hna. pose proof (reachable_Inv a s Hr) as [_ He Hac _].
  rewrite Hrp in He. cbn in He.
  destruct (falling_scl_total s Hac) as [s' H].
  exists s'. split; [exact H |].
  destruct (falling_scl_sda _ _ H) as (ack & Hack & Hsda).
  assert (ack = false) as ->.
  { unfold ack_wanted in Hack. rewrite He in Hack.
    destruct Hna as [Hap | Hm].
    - rewrite Hap in Hack. injection Hack as <-. reflexivity.
    - rewrite Hm in Hack. destruct (address_phase s);
        injection Hack as <-; reflexivity. }
  rewrite Hrp in Hsda. cbn [andb] in Hsda.
  apply falling_scl_frame in H as (_ & _ & _ & _ & _ & _ & Hv & _).
  rewrite Hv. split.
  - intros Hk. rewrite <- val_bit_testbit by lia.
    destruct (in_byte_iff (bit_pos s')) as [_ Hin].
    rewrite Hin in Hsda by lia. split; exact Hsda.
  - intros H9. rewrite H9 in Hsda. exact Hsda.
Qed.

Lemma read_phase_drives_data_bits_witness :
  exists s',
    step FallingEdge_scl first_byte_sent = Ok s' /\
    bit_pos s' = 1 /\ sda_i s' = Z.b2z (Z.testbit (val s') 7).
Proof.
  destruct (read_phase_drives_data_bits 0x45 first_byte_sent
              first_byte_sent_reachable eq_refl (or_introl eq_refl))
    as (s' & H & H18 & _).
  exists s'. split; [exact H |].
  assert (Hb : bit_pos s' = 1)
    by (vm_compute in H; injection H as <-; reflexivity).
  split; [exact Hb |].
  rewrite Hb in H18. apply H18. lia.
Defined.

(** C7: construction.  For every address in [0, 0x7F] the constructor
    returns an object, whose own address is that address; for every address
    above 0x7F it raises the exception the specification calls
    ConfigurationError and returns no object. *)
Theorem construction_address_range (a : Z) :
  (0 <= a <= 0x7f -> exists s, __init__ a = Ok s /\ addr s = a) /\
  (0x7f < a ->
   __init__ a = Raise ConfigurationError /\ forall s, __init__ a <> Ok s).
Proof.
  unfold __init__. split; intros H.
  - destruct (Z.gtb_spec a 0x7f); [lia |].
    exists (fresh a). split; [reflexivity | apply fresh_addr, H].
  - destruct (Z.gtb_spec a 0x7f); [| lia].
    split; [reflexivity | discriminate].
Qed.

Lemma construction_address_range_witness :
  (exists s, __init__ 0x7f = Ok s /\ addr s = 0x7f) /\
  (__init__ 0x80 = Raise ConfigurationError /\
   forall s, __init__ 0x80 <> Ok s).
Proof.
  split.
  - apply (proj1 (construction_address_range 0x7f)). lia.
  - apply (proj2 (construction_address_range 0x80)). lia.
Defined.

(** C8: Stop.  The data line rising while the clock is high sets [stop] and
    leaves every other attribute as it was, [bit_pos], the phase flags,
    [active] and [val] among them; and no reaction clears [stop] again:
    once set it stays set along every event sequence. *)
Theorem stop_sets_only_stop_seen (s : I2cSlave) :
  (exists s', step Stop s = Ok s' /\
     stop s' = true /\
     bit_pos s' = bit_pos s /\ start s' = start s /\
     address_phase s' = address_phase s /\
     read_phase s' = read_phase s /\ write_phase s' = write_phase s /\
     active s' = active s /\ val s' = val s /\
     recv_addr s' = recv_addr s /\ recv_byte s' = recv_byte s /\
     access_type s' = access_type s /\
     addr s' = addr s /\ sda_i s' = sda_i s) /\
  (forall (t : list event) (s' : I2cSlave),
     stop s = true -> run t s = Ok s' -> stop s' = true).
Proof.
  split.
  - exists (set_stop true s). destruct s. repeat split; reflexivity.
  - intros t. revert s. induction t as [| e t IH]; intros s s' Hs H; simpl in H.
    + injection H as <-. exact Hs.
    + apply bind_Ok in H as (s1 & H1 & H). apply (IH s1 s'); [| exact H].
      destruct e as [c | c | | b]; cbn [step] in H1.
      * injection H1 as <-. destruct c, s; assumption.
      * injection H1 as <-. destruct c, s; reflexivity || assumption.
      * apply falling_scl_frame in H1 as (_ & -> & _). exact Hs.
      * apply rising_scl_frame in H1 as (_ & _ & -> & _). exact Hs.
Qed.

Lemma stop_sets_only_stop_seen_witness :
  exists s',
    run [Start; FallingEdge_scl; RisingEdge_scl true; Stop]
      (_detect_stop true (fresh 0x45)) = Ok s' /\
    stop s' = true.
Proof.
  eexists. split; [vm_compute; reflexivity |].
  apply (proj2 (stop_sets_only_stop_seen (_detect_stop true (fresh 0x45)))
           [Start; FallingEdge_scl; RisingEdge_scl true; Stop]);
    [reflexivity | vm_compute; reflexivity].
Defined.

(** C9: a read from a foreign address.  When the first byte after a Start
    carries direction 1 and a 7-bit address other than the own address, the
    slave has [active = False] and yet [read_phase = True]; it leaves the
    acknowledge slot released, and on the eight falling edges that follow it
    drives the bits of [val], most significant first.  Past the address
    byte the falling-edge reaction is the same whatever [active] holds. *)
Theorem mismatched_read_address_drives
  (s : I2cSlave) (a : Z) (ack : bool) (bs : list bool) :
  0 <= a <= 0x7f -> a <> addr s -> List.length bs = 8%nat ->
  (exists s8,
     run (Start :: send_byte (address_byte a true)) s = Ok s8 /\
     active s8 = Some false /\ read_phase s8 = true /\
     driven (clock_bit ack ++ send_bits bs) s8 =
       Some (1 :: map Z.b2z (bits_msb (val s)))) /\
  (forall (m : option bool) (s1 s2 : I2cSlave),
     address_phase s1 = false -> step FallingEdge_scl s1 = Ok s2 ->
     step FallingEdge_scl (set_active m s1) = Ok (set_active m s2) /\
     sda_i (set_active m s2) = sda_i s2).
Proof.
  intros Ha Hne Hlen. split.
  - destruct (read_transaction s a ack bs Ha)
      as (s8 & H8 & _ & Hrp & _ & Hac & Hd).
    apply Z.eqb_neq in Hne. rewrite Hne in Hac, Hd.
    rewrite Hlen, sent_byte in Hd.
    exists s8. repeat split; assumption.
  - intros m s1 s2 Hap H. split.
    + exact (falling_scl_ignores_active m s1 s2 Hap H).
    + destruct s2; reflexivity.
Qed.

Lemma mismatched_read_address_drives_witness :
  exists s8,
    run (Start :: send_byte (address_byte 0x08 true)) (fresh 0x45) = Ok s8 /\
    active s8 = Some false /\ read_phase s8 = true /\
    driven (clock_bit true ++ send_bits (bits_msb 0xFF)) s8 =
      Some (1 :: map Z.b2z (bits_msb (val (fresh 0x45)))).
Proof.
  apply (mismatched_read_address_drives (fresh 0x45) 0x08 true
           (bits_msb 0xFF));
    [lia | discriminate | reflexivity].
Defined.

(** C10: the seed.  A freshly constructed object has 0x81 in [val]; and
    after any event sequence that completes no read byte, a read from the
    own address is acknowledged and its first data byte is 0x81, sent most
    significant bit first. *)
Theorem seed_is_first_read_byte
  (a : Z) (t : list event) (s0 s : I2cSlave) (ack : bool) (bs : list bool) :
  0 <= a <= 0x7f ->
  __init__ a = Ok s0 -> run t s0 = Ok s -> completed_reads t s0 = 0 ->
  List.length bs = 8%nat ->
  val s0 = 0x81 /\
  exists s8,
    run (Start :: send_byte (address_byte a true)) s = Ok s8 /\
    active s8 = Some true /\ read_phase s8 = true /\
    driven (clock_bit ack ++ send_bits bs) s8 =
      Some (0 :: map Z.b2z (bits_msb 0x81)).
Proof.
  intros Ha Hi Hrun Hnone Hlen.
  unfold __init__ in Hi. destruct (Z.gtb_spec a 0x7f); [lia |].
  injection Hi as <-. split; [reflexivity |].
  pose proof (run_val t _ _ Hrun) as Hv. rewrite Hnone, Z.add_0_r in Hv.
  pose proof (run_addr t _ _ Hrun) as Had. rewrite (fresh_addr a Ha) in Had.
  destruct (read_transaction s a ack bs Ha)
    as (s8 & H8 & _ & Hrp & _ & Hac & Hd).
  rewrite Had, Z.eqb_refl in Hac, Hd.
  rewrite Hlen, sent_byte, Hv in Hd.
  exists s8. repeat split; assumption.
Qed.

Lemma seed_is_first_read_byte_witness :
  val (fresh 0x45) = 0x81 /\
  exists s8,
    run (Start :: send_byte (address_byte 0x45 true)) write_stopped = Ok s8 /\
    active s8 = Some true /\ read_phase s8 = true /\
    driven (clock_bit false ++ send_bits (bits_msb 0xFF)) s8 =
      Some (0 :: map Z.b2z (bits_msb 0x81)).
Proof.
  apply (seed_is_first_read_byte 0x45
           (Start :: send_byte 0x8A ++ clock_bit false ++ send_byte 0x00
              ++ clock_bit false ++ [Stop])
           (fresh 0x45) write_stopped false (bits_msb 0xFF));
    [lia | reflexivity | vm_compute; reflexivity | vm_compute; reflexivity
    | reflexivity].
Defined.

(** * Further properties of the reactions *)

(** ** The driven line *)

Lemma val_bit_range (v k : Z) : val_bit v k = 0 \/ val_bit v k = 1.
Proof.
  unfold val_bit.
  assert (H : Z.land (Z.shiftr v (8 - k)) 0x1 = Z.shiftr v (8 - k) mod 2)
    by (apply (Z.land_ones _ 1); lia).
  rewrite H. pose proof (Z.mod_pos_bound (Z.shiftr v (8 - k)) 2). lia.
Qed.

Lemma falling_scl_level (s s' : I2cSlave) :
  _falling_scl s = Ok s' -> sda_i s' = 0 \/ sda_i s' = 1.
Proof.
  intros H. destruct (falling_scl_sda _ _ H) as (ack & _ & ->).
  destruct ack.
  - destruct (bit_pos s' =? 9); auto.
  - destruct (read_phase s && negb (0 =? bit_pos s') && negb (bit_pos s' >=? 9));
      [apply val_bit_range | auto].
Qed.

(** X1: the level on the driven line.  In every reachable state [sda_i] is
    0 or 1: the slave never puts anything but a logic level on the line,
    whatever [val] has grown to. *)
Theorem driven_line_is_a_bit (a : Z) (s : I2cSlave) :
  reachable a s -> sda_i s = 0 \/ sda_i s = 1.
Proof.
  revert s.
  apply (reachable_ind a (fun s => sda_i s = 0 \/ sda_i s = 1)).
  - intros s0 H. unfold __init__ in H.
    destruct (a >? 0x7f); [discriminate H |]. injection H as <-. auto.
  - intros e s1 s2 IH H. destruct e as [c | c | | b]; cbn [step] in H.
    + injection H as <-. destruct c, s1; exact IH.
    + injection H as <-. destruct c, s1; exact IH.
    + exact (falling_scl_level _ _ H).
    + apply rising_scl_frame in H as (_ & _ & _ & _ & ->). exact IH.
Qed.

Lemma driven_line_is_a_bit_witness :
  sda_i first_byte_sent = 0 \/ sda_i first_byte_sent = 1.
Proof.
  apply (driven_line_is_a_bit 0x45 first_byte_sent).
  exists (read_bytes 0), (fresh 0x45). split; vm_compute; reflexivity.
Defined.

(** ** Before the first Start *)

Lemma idle_step (e : event) (s : I2cSlave) :
  idle s -> no_start [e] = true ->
  exists s', step e s = Ok s' /\ idle s' /\ val s' = val s /\
             active s' = active s /\ recv_byte s' = recv_byte s.
Proof.
  intros (Hb & Hst & Hap & Hrp & Hwp & Hsd) He.
  destruct s as [ad st sp bp ap rp wp ra v ac rb at_ sd].
  attrs in Hb; attrs in Hst; attrs in Hap; attrs in Hrp; attrs in Hwp;
    attrs in Hsd.
  subst bp st ap rp wp sd. unfold idle.
  destruct e as [[|] | [|] | | b]; try discriminate He;
    eexists; (split; [reflexivity |]); attrs; repeat split; reflexivity.
Qed.

(** X2: no Start, no activity.  From a freshly constructed object, an event
    sequence without a Start (clock edges, Stops, data edges while the clock
    is low) never raises, leaves [bit_pos] at 0, the phase flags clear and
    [val] at the seed, and every falling clock edge leaves the driven line
    released. *)
Theorem idle_until_start (a : Z) (t : list event) (s0 : I2cSlave) :
  __init__ a = Ok s0 -> no_start t = true ->
  exists (s : I2cSlave) (l : list Z),
    run t s0 = Ok s /\
    bit_pos s = 0 /\ address_phase s = false /\
    read_phase s = false /\ write_phase s = false /\
    val s = 0x81 /\ sda_i s = 1 /\
    driven t s0 = Some l /\ Forall (fun x => x = 1) l.
Proof.
  intros Hi Ht.
  assert (H0 : idle s0 /\ val s0 = 0x81).
  { unfold __init__ in Hi. destruct (a >? 0x7f); [discriminate Hi |].
    injection Hi as <-. unfold idle. repeat split; reflexivity. }
  clear Hi. destruct H0 as (Hidle & Hv). rewrite <- Hv. clear Hv.
  revert s0 Hidle Ht. induction t as [| e t IH]; intros s0 Hidle Ht.
  - exists s0, []. destruct Hidle as (Hb & _ & Hap & Hrp & Hwp & Hsd).
    repeat split; try assumption; try reflexivity. constructor.
  - cbn [no_start forallb] in Ht. apply andb_true_iff in Ht as (He & Ht).
    destruct (idle_step e s0 Hidle) as (s1 & H1 & Hidle1 & Hv1 & _);
      [cbn [no_start forallb]; rewrite He; reflexivity |].
    destruct (IH s1 Hidle1 Ht)
      as (s & l & Hrun & Hb & Hap & Hrp & Hwp & Hv & Hsd & Hd & Hl).
    cbn [run driven]. rewrite H1. cbn [bind]. rewrite Hd.
    exists s. eexists. split; [exact Hrun |].
    repeat split; try assumption; try congruence.
    destruct e; try exact Hl.
    constructor; [apply Hidle1 | exact Hl].
Qed.

Lemma idle_until_start_witness :
  exists (s : I2cSlave) (l : list Z),
    run [FallingEdge_scl; RisingEdge_scl false; Stop; FallingEdge_sda false;
         FallingEdge_scl] (fresh 0x45) = Ok s /\
    bit_pos s = 0 /\ address_phase s = false /\
    read_phase s = false /\ write_phase s = false /\
    val s = 0x81 /\ sda_i s = 1 /\
    driven [FallingEdge_scl; RisingEdge_scl false; Stop; FallingEdge_sda false;
            FallingEdge_scl] (fresh 0x45) = Some l /\
    Forall (fun x => x = 1) l.
Proof.
  apply (idle_until_start 0x45); reflexivity.
Defined.

(** ** The own address *)

(** X3: the own address.  The constructor accepts every address up to 0x7F,
    negative ones too, and keeps its low seven bits; no reaction assigns
    [addr], so in every reachable state the own address is [a mod 128], a
    value in [0, 0x7F]. *)
Theorem own_address_seven_bits (a : Z) :
  (a <= 0x7f -> exists s0, __init__ a = Ok s0 /\ addr s0 = a mod 128) /\
  (forall s, reachable a s -> addr s = a mod 128 /\ 0 <= addr s <= 0x7f).
Proof.
  assert (Hland : Z.land a 0x7f = a mod 128).
  { change 0x7f with (Z.ones 7). rewrite Z.land_ones by lia. reflexivity. }
  split.
  - intros Ha. unfold __init__. destruct (Z.gtb_spec a 0x7f); [lia |].
    exists (fresh a). split; [reflexivity | exact Hland].
  - intros s (t & s0 & Hi & Hr).
    unfold __init__ in Hi. destruct (a >? 0x7f); [discriminate Hi |].
    injection Hi as <-. rewrite (run_addr t _ _ Hr). cbn [fresh addr].
    rewrite Hland. split; [reflexivity |].
    pose proof (Z.mod_pos_bound a 128). lia.
Qed.

Lemma own_address_seven_bits_witness :
  (exists s0, __init__ (-1) = Ok s0 /\ addr s0 = 0x7f) /\
  (addr first_byte_sent = 0x45 /\ 0 <= addr first_byte_sent <= 0x7f).
Proof.
  split.
  - apply (proj1 (own_address_seven_bits (-1))). lia.
  - apply (proj2 (own_address_seven_bits 0x45) first_byte_sent).
    exists (read_bytes 0), (fresh 0x45). split; vm_compute; reflexivity.
Defined.

(** ** Assembling a byte in any phase *)

Lemma eighth_bit_total_Inv (b : bool) (s : I2cSlave) :
  (write_phase s = true -> active s <> None /\ access_type s <> None) ->
  recv_byte s <> None ->
  exists s', eighth_bit b s = Ok s'.
Proof.
  destruct s as [ad st sp bp ap rp wp ra v ac rb at_ sd]; attrs.
  intros Hw Hrb. unfold eighth_bit; attrs.
  destruct ap; attrs.
  - destruct rb as [rb |]; [| contradiction]. attrs.
    destruct b; attrs; eexists; reflexivity.
  - destruct wp; attrs; [| eexists; reflexivity].
    destruct (Hw eq_refl) as (Hac & Hat).
    destruct at_ as [at_ |]; [| contradiction].
    destruct ac as [ac |]; [| contradiction].
    attrs. eexists; reflexivity.
Qed.

Lemma reachable_start_pending (a : Z) (s : I2cSlave) :
  reachable a s -> start s = true -> bit_pos s = 0.
Proof.
  revert s.
  apply (reachable_ind a (fun s => start s = true -> bit_pos s = 0)).
  - intros s0 H. unfold __init__ in H.
    destruct (a >? 0x7f); [discriminate H |]. injection H as <-. reflexivity.
  - intros e s1 s2 IH H. destruct e as [c | c | | b]; cbn [step] in H.
    + injection H as <-. destruct c, s1; [reflexivity | exact IH].
    + injection H as <-. destruct c, s1; exact IH.
    + apply falling_scl_pos in H as (-> & _). discriminate.
    + apply rising_scl_frame in H as (_ & -> & _ & -> & _). exact IH.
Qed.

Lemma assembling_falling (k acc : Z) (s : I2cSlave) :
  assembling k acc s ->
  exists s1, _falling_scl s = Ok s1 /\ Inv s1 /\
             bit_pos s1 = k + 1 /\ start s1 = false /\
             recv_byte s1 = recv_byte s.
Proof.
  intros (Hinv & Hact & Hnext & Hrb).
  destruct (falling_scl_total s (inv_active s Hinv)) as [s1 H1].
  exists s1. split; [exact H1 |].
  split; [exact (falling_scl_Inv s s1 Hinv H1) |].
  destruct (falling_scl_pos _ _ H1) as (Hs1 & Hb1).
  destruct (falling_scl_frame _ _ H1) as (_ & _ & _ & _ & _ & _ & _ & _ & Erb & _).
  repeat split; try assumption.
  rewrite Hb1, <- Hnext.
  destruct Hact as [-> | Hn]; [reflexivity |].
  apply Z.eqb_neq in Hn. rewrite Hn, orb_true_r. reflexivity.
Qed.

Lemma assembling_clock_bit (k acc : Z) (b : bool) (s : I2cSlave) :
  assembling k acc s -> 0 <= k <= 6 ->
  exists s', run (clock_bit b) s = Ok s' /\
             assembling (k + 1) (shift_in k acc b) s'.
Proof.
  intros Has Hk.
  destruct (assembling_falling k acc s Has)
    as (s1 & H1 & Hinv1 & Hb1 & Hs1 & Hrb1).
  destruct Has as (_ & _ & _ & Hrb).
  assert (Hpb : partial_byte s1 = Some (if k =? 0 then 0 else acc)).
  { unfold partial_byte. rewrite Hb1, Hrb1.
    destruct (Z.eqb_spec k 0) as [-> | N0]; [reflexivity |].
    destruct (Z.eqb_spec 1 (k + 1)); [lia | apply Hrb; lia]. }
  set (s2 := set_recv_byte (Some (shift_in k acc b)) s1).
  assert (Hsample : sample b s1 = Ok s2).
  { rewrite (sample_bit b s1 _ ltac:(lia) ltac:(lia) Hpb). cbv zeta.
    rewrite Hb1. destruct (Z.eqb_spec (k + 1) 8); [lia | reflexivity]. }
  destruct (set_recv_byte_attrs (Some (shift_in k acc b)) s1)
    as (_ & Eb & _ & Erb & _).
  fold s2 in Eb, Erb.
  assert (Hs2 : start s2 = start s1) by (unfold s2; destruct s1; reflexivity).
  assert (Hrise : _rising_scl b s1 = Ok s2).
  { unfold _rising_scl. rewrite Hsample. cbn [bind].
    rewrite ninth_clock_other; [reflexivity | rewrite Eb; lia]. }
  exists s2. split.
  - simpl. rewrite H1. simpl. rewrite Hrise. reflexivity.
  - split; [exact (rising_scl_Inv b s1 s2 Hinv1 Hrise) |].
    split; [right; rewrite Eb; lia |].
    split; [| intros _; exact Erb].
    rewrite Eb, Hb1. unfold next_pos.
    destruct (Z.eqb_spec (k + 1) 9); [lia | reflexivity].
Qed.

Lemma assembling_send_bits (bs : list bool) :
  forall (k acc : Z) (s : I2cSlave),
    assembling k acc s -> 0 <= k -> k + Z.of_nat (List.length bs) <= 7 ->
    exists s', run (send_bits bs) s = Ok s' /\
               assembling (k + Z.of_nat (List.length bs))
                 (assemble k acc bs) s'.
Proof.
  induction bs as [| b bs IH]; intros k acc s Has Hk Hlen.
  - exists s. simpl. rewrite Z.add_0_r. split; [reflexivity | exact Has].
  - cbn [List.length] in Hlen. rewrite Nat2Z.inj_succ in Hlen.
    destruct (assembling_clock_bit k acc b s Has) as (s1 & H1 & Has1); [lia |].
    destruct (IH (k + 1) (shift_in k acc b) s1 Has1) as (s2 & H2 & Has2);
      [lia | lia |].
    exists s2. split.
    + change (send_bits (b :: bs)) with (clock_bit b ++ send_bits bs).
      apply (run_app_Ok _ _ _ s1); assumption.
    + cbn [List.length assemble]. rewrite Nat2Z.inj_succ.
      replace (k + Z.succ (Z.of_nat (List.length bs)))
        with (k + 1 + Z.of_nat (List.length bs)) by lia.
      exact Has2.
Qed.

Lemma assembling_eighth_bit (acc : Z) (b : bool) (s : I2cSlave) :
  assembling 7 acc s ->
  exists s', run (clock_bit b) s = Ok s' /\ Inv s' /\
             bit_pos s' = 8 /\ recv_byte s' = Some (shift_in 7 acc b).
Proof.
  intros Has.
  destruct (assembling_falling 7 acc s Has)
    as (s1 & H1 & Hinv1 & Hb1 & Hs1 & Hrb1).
  destruct Has as (_ & _ & _ & Hrb).
  assert (Hpb : partial_byte s1 = Some acc).
  { unfold partial_byte. rewrite Hb1, Hrb1. apply Hrb. lia. }
  set (s2 := set_recv_byte (Some (shift_in 7 acc b)) s1).
  assert (Hsample : sample b s1 = eighth_bit b s2).
  { rewrite (sample_bit b s1 _ ltac:(lia) ltac:(lia) Hpb). cbv zeta.
    rewrite Hb1. reflexivity. }
  destruct (set_recv_byte_attrs (Some (shift_in 7 acc b)) s1)
    as (_ & Eb & _ & Erb & (_ & Ewp & Eac & Eat & _)).
  fold s2 in Eb, Erb, Ewp, Eac, Eat.
  destruct (eighth_bit_total_Inv b s2) as [s3 H3].
  { rewrite Ewp, Eac, Eat. intros Hw. apply (inv_decoded s1 Hinv1).
    rewrite Hw. apply orb_true_r. }
  { rewrite Erb. discriminate. }
  destruct (eighth_bit_frame _ _ _ H3) as (_ & _ & _ & Fb & _ & _ & _ & Frb).
  assert (Hrise : _rising_scl b s1 = Ok s3).
  { unfold _rising_scl. rewrite Hsample, H3. cbn [bind].
    rewrite ninth_clock_other; [reflexivity | lia]. }
  exists s3. split.
  - simpl. rewrite H1. simpl. rewrite Hrise. reflexivity.
  - split; [exact (rising_scl_Inv b s1 s3 Hinv1 Hrise) |].
    split; [rewrite Fb, Eb, Hb1; reflexivity | rewrite Frb; exact Erb].
Qed.

(** X4: byte assembly.  In a reachable state that stands between two bytes
    ([bit_pos = 9]) or has a start pending, and whatever the phase, clocking
    in the eight bits of a byte, most significant first, never raises and
    leaves that byte in [recv_byte] at [bit_pos = 8]. *)
Theorem byte_received (a : Z) (s : I2cSlave) (byte : Z) :
  reachable a s -> bit_pos s = 9 \/ start s = true -> 0 <= byte < 256 ->
  exists s', run (send_byte byte) s = Ok s' /\
             bit_pos s' = 8 /\ recv_byte s' = Some byte.
Proof.
  intros Hr Hpos Hbyte.
  assert (Has : assembling 0 0 s).
  { split; [exact (reachable_Inv a s Hr) |].
    split; [destruct Hpos as [-> | ->]; [right; lia | left; reflexivity] |].
    split; [| lia].
    destruct Hpos as [-> | Hst]; [reflexivity |].
    rewrite (reachable_start_pending a s Hr Hst). reflexivity. }
  destruct (assembling_send_bits (high_bits byte) 0 0 s Has)
    as (s7 & H7 & Has7); [lia | simpl; lia |].
  change (0 + Z.of_nat (List.length (high_bits byte))) with 7 in Has7.
  destruct (assembling_eighth_bit _ (Z.testbit byte 0) s7 Has7)
    as (s8 & H8 & _ & Hb & Hrb).
  rewrite (assemble_byte byte 0 Hbyte) in Hrb.
  exists s8. split; [| split; assumption].
  unfold send_byte. rewrite bits_msb_split.
  unfold send_bits. rewrite flat_map_app.
  apply (run_app_Ok _ _ _ s7); [exact H7 |].
  cbn [flat_map]. rewrite app_nil_r. exact H8.
Qed.

Lemma byte_received_witness :
  exists s', run (send_byte 0xA5) first_byte_sent = Ok s' /\
             bit_pos s' = 8 /\ recv_byte s' = Some 0xA5.
Proof.
  apply (byte_received 0x45 first_byte_sent 0xA5).
  - exists (read_bytes 0), (fresh 0x45). split; vm_compute; reflexivity.
  - left. reflexivity.
  - lia.
Defined.

(** ** Which event sequences raise *)





(** X6: the unassigned shift register.  As long as [recv_byte] has not been
    assigned (no rising clock edge at position 1 so far), a Start followed
    by two falling clock edges with no rising edge between them makes the
    next rising edge raise AttributeError: line 163 reads [recv_byte] at
    position 2, and only position 1 assigns it first. *)
Theorem second_falling_edge_raises (s : I2cSlave) (b : bool) :
  recv_byte s = None ->
  run [Start; FallingEdge_scl; FallingEdge_scl; RisingEdge_scl b] s
  = Raise (AttributeError "recv_byte").
Proof.
  destruct s as [ad st sp bp ap rp wp ra v ac rb at_ sd]; attrs.
  intros ->. destruct wp, rp; reflexivity.
Qed.

Lemma second_falling_edge_raises_witness :
  run [Start; FallingEdge_scl; FallingEdge_scl; RisingEdge_scl true]
    (fresh 0x45)
  = Raise (AttributeError "recv_byte").
Proof. apply (second_falling_edge_raises (fresh 0x45) true). reflexivity. Defined.

(** ** A read of several bytes *)

Lemma bits_msb_mod (v : Z) : bits_msb (v mod 256) = bits_msb v.
Proof.
  unfold bits_msb. cbn [map]. change 256 with (2 ^ 8).
  rewrite !Z.mod_pow2_bits_low by lia. reflexivity.
Qed.

Lemma sent_nine (v : Z) (m : nat) :
  sent v 9 (9 + m) = map Z.b2z (bits_msb (v mod 256)) ++ 1 :: sent (v + 1) 9 m.
Proof.
  rewrite bits_msb_mod.
  change (sent v 9 (9 + m))
    with (val_bit v 1 :: val_bit v 2 :: val_bit v 3 :: val_bit v 4
            :: val_bit v 5 :: val_bit v 6 :: val_bit v 7 :: val_bit v 8
            :: 1 :: sent (v + 1) 9 m).
  rewrite !val_bit_testbit by lia. reflexivity.
Qed.

Lemma sent_stream (n : nat) : forall v, sent v 9 (9 * n) = read_stream v n.
Proof.
  induction n as [| n IH]; intros v; [reflexivity |].
  rewrite Nat.mul_succ_r, Nat.add_comm, sent_nine, IH. reflexivity.
Qed.

(** X7: a read of several bytes.  From any state, after a Start and the read
    address byte of the own address, the slave acknowledges and then sends,
    for as many bytes as the master clocks, the values [val], [val + 1],
    [val + 2], ... reduced modulo 256, most significant bit first, each
    followed by a released acknowledge slot, whatever the master answers in
    that slot. *)
Theorem read_stream_on_wire
  (s : I2cSlave) (a : Z) (ack : bool) (bs : list bool) (n : nat) :
  0 <= a <= 0x7f -> a = addr s -> List.length bs = (9 * n)%nat ->
  exists s8,
    run (Start :: send_byte (address_byte a true)) s = Ok s8 /\
    driven (clock_bit ack ++ send_bits bs) s8 =
      Some (0 :: read_stream (val s) n).
Proof.
  intros Ha Hown Hlen.
  destruct (read_transaction s a ack bs Ha) as (s8 & H8 & _ & _ & _ & _ & Hd).
  exists s8. split; [exact H8 |].
  rewrite Hd, Hlen, sent_stream. subst a. rewrite Z.eqb_refl. reflexivity.
Qed.

Lemma read_stream_on_wire_witness :
  exists s8,
    run (Start :: send_byte (address_byte 0x45 true))
      (set_val 0xFF (fresh 0x45)) = Ok s8 /\
    driven (clock_bit false
              ++ send_bits (bits_msb 0xFF ++ [false] ++ bits_msb 0xFF ++ [true]))
      s8 =
      Some (0 :: read_stream (val (set_val 0xFF (fresh 0x45))) 2).
Proof.
  apply (read_stream_on_wire (set_val 0xFF (fresh 0x45)) 0x45 false
           (bits_msb 0xFF ++ [false] ++ bits_msb 0xFF ++ [true]) 2);
    [lia | reflexivity | reflexivity].
Defined.

(** ** A write of several bytes *)

Lemma eighth_bit_write (b : bool) (s : I2cSlave) :
  address_phase s = false -> write_phase s = true ->
  active s <> None -> access_type s <> None ->
  eighth_bit b s = Ok s.
Proof.
  intros Hap Hwp Hac Hat. unfold eighth_bit. rewrite Hap. cbn [bind].
  rewrite Hap, Hwp. cbn [orb].
  destruct (access_type s); [| contradiction].
  destruct (active s); [| contradiction]. reflexivity.
Qed.

(** One clock cycle of a write: the level driven after the falling edge and
    the state after the rising edge. *)
Lemma writing_clock_bit (k : Z) (b : bool) (s : I2cSlave) :
  writing k s -> 1 <= k <= 9 ->
  exists s1 s2,
    _falling_scl s = Ok s1 /\ _rising_scl b s1 = Ok s2 /\
    sda_i s1 = (if next_pos k =? 9 then 0 else 1) /\
    writing (next_pos k) s2 /\ val s2 = val s.
Proof.
  intros (Hb & Hwp & Hrp & Hap & Hac & Hat & Hrb) Hk.
  pose proof (next_pos_range k Hk) as Hk'.
  destruct (falling_scl_total s) as [s1 H1]; [rewrite Hap; discriminate |].
  destruct (falling_scl_pos _ _ H1) as (_ & Hb1).
  destruct (falling_scl_frame _ _ H1)
    as (_ & _ & Eap & Erp & Ewp & _ & Ev & Eac & Erb & Eat).
  assert (Hpos : bit_pos s1 = next_pos k).
  { rewrite Hb1, Hb. destruct (Z.eqb_spec k 0); [lia |].
    rewrite orb_true_r. reflexivity. }
  assert (Hsda : sda_i s1 = (if next_pos k =? 9 then 0 else 1)).
  { destruct (falling_scl_sda _ _ H1) as (ack & Hack & ->).
    unfold ack_wanted in Hack. rewrite Hap, Hwp in Hack.
    injection Hack as <-. rewrite Hpos. reflexivity. }
  exists s1. unfold _rising_scl.
  destruct (Z.eqb_spec (next_pos k) 9) as [E9 | N9].
  - rewrite sample_idle by lia. cbn [bind].
    eexists. split; [exact H1 |]. split; [reflexivity |].
    split; [exact Hsda |].
    destruct (ninth_clock_frame s1)
      as (_ & _ & _ & Fb & _ & Frp & Fwp & Fac & _ & _ & Fat).
    destruct (ninth_clock_val s1) as (Fv & Fap).
    rewrite Erp, Hrp in Fv. cbn [andb] in Fv.
    rewrite Hpos, E9 in Fap. cbn in Fap.
    unfold writing. rewrite Fb, Frp, Fwp, Fap, Fv, Fac, Fat.
    rewrite Hpos, Erp, Ewp, Ev, Eac, Eat.
    repeat split; try assumption; try reflexivity; lia.
  - assert (Hpb : exists rb, partial_byte s1 = Some rb).
    { unfold partial_byte. rewrite Hpos, Erb.
      destruct (Z.eqb_spec 1 (next_pos k)) as [_ | N1]; [eexists; reflexivity |].
      destruct (recv_byte s) as [rb |] eqn:E; [eexists; reflexivity |].
      exfalso. apply Hrb; [| reflexivity].
      unfold next_pos in N1, N9. destruct (Z.eqb_spec k 9); lia. }
    destruct Hpb as [rb Hpb].
    rewrite (sample_bit b s1 rb) by (try exact Hpb; lia). cbv zeta.
    set (s2 := set_recv_byte _ s1).
    destruct (set_recv_byte_attrs
                (Some (Z.lor rb (Z.shiftl (Z.b2z b) (8 - bit_pos s1)))) s1)
      as (_ & Fb & Fap & Frb & (Frp & Fwp & Fac & Fat & _)).
    fold s2 in Fb, Fap, Frb, Frp, Fwp, Fac, Fat.
    assert (Fv : val s2 = val s1) by (unfold s2; destruct s1; reflexivity).
    assert (Hs2 : (if bit_pos s1 =? 8 then eighth_bit b s2 else Ok s2) = Ok s2).
    { destruct (bit_pos s1 =? 8); [| reflexivity].
      apply eighth_bit_write; congruence. }
    rewrite Hs2. cbn [bind]. rewrite ninth_clock_other by lia.
    exists s2. split; [exact H1 |]. split; [reflexivity |].
    split; [exact Hsda |].
    unfold writing. rewrite Fb, Frp, Fwp, Fap, Frb, Fv, Fac, Fat.
    repeat split; congruence.
Qed.

Lemma writing_send_bits (bs : list bool) :
  forall (k : Z) (s : I2cSlave),
    writing k s -> 1 <= k <= 9 ->
    exists s', run (send_bits bs) s = Ok s' /\ val s' = val s /\
               driven (send_bits bs) s =
                 Some (ack_levels k (List.length bs)).
Proof.
  induction bs as [| b bs IH]; intros k s Hs Hk.
  - exists s. repeat split; reflexivity.
  - destruct (writing_clock_bit k b s Hs Hk)
      as (s1 & s2 & H1 & H2 & Hsda & Hs2 & Hv).
    destruct (IH _ _ Hs2 (next_pos_range k Hk)) as (s' & Hrun & Hv' & Hd).
    change (send_bits (b :: bs)) with (clock_bit b ++ send_bits bs).
    destruct (driven_clock_bit b (send_bits bs) s s1 s2 H1 H2) as (-> & Hc).
    exists s'. split; [exact (run_app_Ok _ _ _ _ _ Hc Hrun) |].
    split; [congruence |].
    rewrite Hd, Hsda. reflexivity.
Qed.

(** The acknowledge cycle that ends the address byte of a write. *)
Lemma write_address_ack (s : I2cSlave) (m x : bool) :
  bit_pos s = 8 -> address_phase s = true -> active s = Some m ->
  write_phase s = true -> read_phase s = false -> access_type s <> None ->
  exists s1 s2,
    _falling_scl s = Ok s1 /\ _rising_scl x s1 = Ok s2 /\
    sda_i s1 = 0 /\ writing 9 s2 /\ val s2 = val s.
Proof.
  intros Hb Hap Hac Hwp Hrp Hat.
  destruct (falling_scl_total s) as [s1 H1]; [rewrite Hac; discriminate |].
  destruct (address_ack_level s s1 m Hb Hap Hac H1) as (Hb1 & Hsda).
  rewrite Hwp, orb_true_r in Hsda.
  destruct (falling_scl_frame _ _ H1)
    as (_ & _ & Eap & Erp & Ewp & _ & Ev & Eac & _ & Eat).
  exists s1, (ninth_clock s1).
  unfold _rising_scl. rewrite sample_idle by lia.
  split; [exact H1 |]. split; [reflexivity |]. split; [exact Hsda |].
  destruct (ninth_clock_frame s1)
    as (_ & _ & _ & Fb & _ & Frp & Fwp & Fac & _ & _ & Fat).
  destruct (ninth_clock_val s1) as (Fv & Fap).
  rewrite Erp, Hrp in Fv. cbn [andb] in Fv.
  rewrite Hb1 in Fap. cbn in Fap.
  unfold writing. rewrite Fb, Frp, Fwp, Fap, Fv, Fac, Fat.
  rewrite Hb1, Erp, Ewp, Ev, Eac, Eat, Hac.
  repeat split; try assumption; try reflexivity; try discriminate; lia.
Qed.

Lemma ack_levels_bytes (n : nat) :
  ack_levels 9 (9 * n) = List.concat (repeat [1; 1; 1; 1; 1; 1; 1; 1; 0] n).
Proof.
  induction n as [| n IH]; [reflexivity |].
  rewrite Nat.mul_succ_r, Nat.add_comm. cbn [repeat List.concat].
  rewrite <- IH. reflexivity.
Qed.

(** X8: a write of several bytes.  From any state, after a Start and the
    write address byte of the own address, the slave acknowledges the
    address, and then for every data byte the master clocks it leaves the
    line released during the eight data bits and pulls it low in the ninth
    slot, never raises, and leaves [val] as it was. *)
Theorem write_transaction
  (s : I2cSlave) (a : Z) (x : bool) (bs : list bool) (n : nat) :
  0 <= a <= 0x7f -> a = addr s -> List.length bs = (9 * n)%nat ->
  exists s8 s',
    run (Start :: send_byte (address_byte a false)) s = Ok s8 /\
    active s8 = Some true /\ write_phase s8 = true /\
    run (clock_bit x ++ send_bits bs) s8 = Ok s' /\
    val s' = val s /\
    driven (clock_bit x ++ send_bits bs) s8 =
      Some (0 :: List.concat (repeat [1; 1; 1; 1; 1; 1; 1; 1; 0] n)).
Proof.
  intros Ha Hown Hlen.
  destruct (address_byte_fields a false Ha) as (Hbyte & Hsh & Hbit).
  destruct (address_byte_received s _ Hbyte)
    as (s8 & H8 & Hb & _ & Hap & _ & _ & Hac & Hrp & Hwp & Hat & _ & Hv).
  rewrite Hsh in Hac. rewrite Hbit in Hrp, Hwp. cbn in Hwp.
  rewrite <- Hown, Z.eqb_refl in Hac.
  destruct (write_address_ack s8 true x Hb Hap Hac Hwp Hrp Hat)
    as (s1 & s2 & H1 & H2 & Hsda & Hs2 & Hv2).
  destruct (writing_send_bits bs 9 s2 Hs2) as (s' & Hrun & Hv' & Hd); [lia |].
  destruct (driven_clock_bit x (send_bits bs) s8 s1 s2 H1 H2) as (Hdr & Hc).
  exists s8, s'. repeat split; try assumption.
  - exact (run_app_Ok _ _ _ _ _ Hc Hrun).
  - congruence.
  - rewrite Hdr, Hd, Hsda, Hlen, ack_levels_bytes. reflexivity.
Qed.

Lemma write_transaction_witness :
  exists s8 s',
    run (Start :: send_byte (address_byte 0x45 false)) (fresh 0x45) = Ok s8 /\
    active s8 = Some true /\ write_phase s8 = true /\
    run (clock_bit false ++ send_bits (bits_msb 0xA5 ++ [false])) s8 = Ok s' /\
    val s' = val (fresh 0x45) /\
    driven (clock_bit false ++ send_bits (bits_msb 0xA5 ++ [false])) s8 =
      Some (0 :: List.concat (repeat [1; 1; 1; 1; 1; 1; 1; 1; 0] 1)).
Proof.
  apply (write_transaction (fresh 0x45) 0x45 false
           (bits_msb 0xA5 ++ [false]) 1);
    [lia | reflexivity | reflexivity].
Defined.

(** ** The acknowledge of a read address *)

(** X9: the acknowledge of a read address.  From any state, after a Start
    and a read address byte, the falling edge that opens the ninth slot
    pulls the line low exactly when the 7-bit address is the own address,
    and leaves it released exactly when it is not. *)
Theorem read_address_acknowledged_iff_matched (s : I2cSlave) (a : Z) :
  0 <= a <= 0x7f ->
  exists s8 s9,
    run (Start :: send_byte (address_byte a true)) s = Ok s8 /\
    step FallingEdge_scl s8 = Ok s9 /\ bit_pos s9 = 9 /\
    (sda_i s9 = 0 <-> a = addr s) /\ (sda_i s9 = 1 <-> a <> addr s).
Proof.
  intros Ha.
  destruct (address_byte_fields a true Ha) as (Hbyte & Hsh & Hbit).
  destruct (address_byte_received s _ Hbyte)
    as (s8 & H8 & Hb & _ & Hap & _ & _ & Hac & _ & Hwp & _).
  rewrite Hsh in Hac. rewrite Hbit in Hwp. cbn in Hwp.
  destruct (falling_scl_total s8) as [s9 H9]; [rewrite Hac; discriminate |].
  destruct (address_ack_level s8 s9 _ Hb Hap Hac H9) as (Hb9 & Hsda).
  rewrite Hwp, orb_false_r in Hsda.
  exists s8, s9. split; [exact H8 |]. split; [exact H9 |].
  split; [exact Hb9 |]. rewrite Hsda.
  destruct (Z.eqb_spec a (addr s)); split; split; intros; try lia;
    try reflexivity; try contradiction; assumption.
Qed.

Lemma read_address_acknowledged_iff_matched_witness :
  exists s8 s9,
    run (Start :: send_byte (address_byte 0x45 true)) (fresh 0x45) = Ok s8 /\
    step FallingEdge_scl s8 = Ok s9 /\ bit_pos s9 = 9 /\
    (sda_i s9 = 0 <-> 0x45 = addr (fresh 0x45)) /\
    (sda_i s9 = 1 <-> 0x45 <> addr (fresh 0x45)).
Proof.
  apply (read_address_acknowledged_iff_matched (fresh 0x45) 0x45). lia.
Defined.
